(** * The PRP extraction-and-sync pipeline: a shallow embedding

    The development follows the TypeScript sources:
    - [lib/youtube-client.ts]   video-id extraction, duration rendering,
                                the metadata client and its transcript fallback;
    - [lib/gemini-client.ts]    the extraction client;
    - [lib/notion-client.ts]    the document-sync client;
    - [src/tools/*.ts]          the tool handlers (parse, extract-more,
                                update-status, sync);
    - [migrations/*.sql]        the relational schema.

    A JavaScript string is modelled as the [string] of its UTF-8 encoding,
    numbers that the code only uses as counters or ids as [nat], [N] or [Z],
    the pauses of the retry loops as rationals; asynchronous
    effectful code runs in a reader-state-exception monad whose state holds
    the database, the log of performed effects and the positions in the
    streams of upstream replies. *)

From Stdlib Require Import String Ascii List Bool Arith ZArith NArith Lia.
From Stdlib Require Import DecimalString QArith Lqa.
Import ListNotations.
Close Scope Q_scope.
Open Scope string_scope.

(** ** JavaScript values that the code throws *)

Inductive ClientName := YouTube | Gemini | Notion.

(** A number that may be [NaN], as [parseInt] returns it. *)
Inductive JsNumber :=
| NaN
| Num (z : Z).

(** [Error] and the subclasses the sources test with [instanceof]. *)
Inductive JsError :=
| PlainError (message : string)
| APIError (client : ClientName) (message : string)
           (status : option Z) (retryAfter : option JsNumber)
| SyntaxError (message : string)
| ZodError (message : string)
| TypeError (message : string)
| PostgresError (message : string).

Definition error_message (e : JsError) : string :=
  match e with
  | PlainError m | APIError _ m _ _ | SyntaxError m | ZodError m | TypeError m
  | PostgresError m => m
  end.

Inductive Outcome (A : Type) :=
| Ok (a : A)
| Throw (e : JsError).
Arguments Ok {A} a.
Arguments Throw {A} e.

(** ** String helpers standing for the JavaScript built-ins *)

Definition byte (c : ascii) : N := N_of_ascii c.

(** The double quote. *)
Definition dq : string := String "034"%char "".

(** *** Code units

    [s.length] and [s[i]] count UTF-16 code units: a character encoded by
    one, two or three bytes is one unit, a character encoded by four bytes
    is a pair of surrogates.  A unit is given by its own encoding. *)
Definition three_bytes (u : N) : string :=
  String (ascii_of_N (224 + u / 4096))
    (String (ascii_of_N (128 + (u / 64) mod 64))
       (String (ascii_of_N (128 + u mod 64)) "")).

Definition surrogates (a b c d : ascii) : list string :=
  let point := ((byte a - 240) * 262144 + (byte b - 128) * 4096
                + (byte c - 128) * 64 + (byte d - 128))%N in
  let v := (point - 65536)%N in
  [three_bytes (55296 + v / 1024); three_bytes (56320 + v mod 1024)].

Fixpoint code_units (s : string) : list string :=
  match s with
  | EmptyString => []
  | String a r1 =>
      if (byte a <? 192)%N then String a "" :: code_units r1
      else
        match r1 with
        | EmptyString => [s]
        | String b r2 =>
            if (byte a <? 224)%N then String a (String b "") :: code_units r2
            else
              match r2 with
              | EmptyString => [s]
              | String c r3 =>
                  if (byte a <? 240)%N then
                    String a (String b (String c "")) :: code_units r3
                  else
                    match r3 with
                    | EmptyString => [s]
                    | String d r4 => (surrogates a b c d ++ code_units r4)%list
                    end
              end
        end
  end.

(** *** White space

    The characters [trim] removes and [parseInt] skips: U+0009 to U+000D,
    U+0020, U+00A0, U+1680, U+2000 to U+200A, U+2028, U+2029, U+202F,
    U+205F, U+3000 and U+FEFF, of one, two or three bytes. *)
Definition is_space (c : ascii) : bool :=
  (byte c =? 32)%N || ((9 <=? byte c)%N && (byte c <=? 13)%N).

Definition is_space2 (a b : ascii) : bool :=
  (byte a =? 194)%N && (byte b =? 160)%N.

Definition is_space3 (a b c : ascii) : bool :=
  ((byte a =? 225)%N && (byte b =? 154)%N && (byte c =? 128)%N)
  || ((byte a =? 226)%N && (byte b =? 128)%N
      && (((128 <=? byte c)%N && (byte c <=? 138)%N)
          || (byte c =? 168)%N || (byte c =? 169)%N || (byte c =? 175)%N))
  || ((byte a =? 226)%N && (byte b =? 129)%N && (byte c =? 159)%N)
  || ((byte a =? 227)%N && (byte b =? 128)%N && (byte c =? 128)%N)
  || ((byte a =? 239)%N && (byte b =? 187)%N && (byte c =? 191)%N).

Fixpoint trim_start (s : string) : string :=
  match s with
  | EmptyString => ""
  | String a r1 =>
      if is_space a then trim_start r1
      else
        match r1 with
        | EmptyString => s
        | String b r2 =>
            if is_space2 a b then trim_start r2
            else
              match r2 with
              | EmptyString => s
              | String c r3 => if is_space3 a b c then trim_start r3 else s
              end
        end
  end.

(** Nothing but white space. *)
Fixpoint all_space (s : string) : bool :=
  match s with
  | EmptyString => true
  | String a r1 =>
      if is_space a then all_space r1
      else
        match r1 with
        | EmptyString => false
        | String b r2 =>
            if is_space2 a b then all_space r2
            else
              match r2 with
              | EmptyString => false
              | String c r3 => is_space3 a b c && all_space r3
              end
        end
  end.

Fixpoint trim_end (s : string) : string :=
  match s with
  | EmptyString => ""
  | String c s' => if all_space s then "" else String c (trim_end s')
  end.

Definition trim (s : string) : string := trim_end (trim_start s).

Fixpoint strip_prefix (p s : string) : option string :=
  match p, s with
  | EmptyString, _ => Some s
  | String a p', String b s' => if Ascii.eqb a b then strip_prefix p' s' else None
  | String _ _, EmptyString => None
  end.

Definition startsWith (s p : string) : bool :=
  match strip_prefix p s with Some _ => true | None => false end.

Fixpoint join (sep : string) (parts : list string) : string :=
  match parts with
  | [] => ""
  | [p] => p
  | p :: rest => p ++ sep ++ join sep rest
  end.

Definition is_digit (c : ascii) : bool :=
  let n := nat_of_ascii c in (48 <=? n)%nat && (n <=? 57)%nat.

(** The character class [[a-zA-Z0-9_-]]. *)
Definition is_id_char (c : ascii) : bool :=
  let n := nat_of_ascii c in
  ((97 <=? n)%nat && (n <=? 122)%nat)
  || ((65 <=? n)%nat && (n <=? 90)%nat)
  || ((48 <=? n)%nat && (n <=? 57)%nat)
  || (n =? 95)%nat || (n =? 45)%nat.

(** [take_class p n s]: exactly [n] leading characters of class [p]
    (the quantifier [{n}]), with what follows them. *)
Fixpoint take_class (p : ascii -> bool) (n : nat) (s : string)
  : option (string * string) :=
  match n with
  | O => Some ("", s)
  | S n' =>
      match s with
      | String c s' =>
          if p c then
            match take_class p n' s' with
            | Some (t, r) => Some (String c t, r)
            | None => None
            end
          else None
      | EmptyString => None
      end
  end.

(** [span_class p s]: the longest prefix of class [p] (greedy [p+] or [p*])
    and the rest. *)
Fixpoint span_class (p : ascii -> bool) (s : string) : string * string :=
  match s with
  | String c s' =>
      if p c then let (t, r) := span_class p s' in (String c t, r)
      else ("", s)
  | EmptyString => ("", "")
  end.

(** Decimal rendering of a number inside a template literal. *)
Definition show_N (n : N) : string := NilEmpty.string_of_uint (N.to_uint n).

(** [parseInt] on a string of decimal digits.  The source computes with
    IEEE doubles; the model is exact for values below 2^53. *)
Definition digit_value (c : ascii) : N := (byte c - 48)%N.

Definition parseInt (ds : string) : N :=
  let fix go (acc : N) (s : string) : N :=
    match s with
    | String c s' => go (10 * acc + digit_value c)%N s'
    | EmptyString => acc
    end in
  go 0%N ds.

Definition safe_integer (n : N) : Prop := (n < 2 ^ 53)%N.

(** [parseInt(text)] on any string: leading white space is skipped, a sign
    is read, the prefix [0x] or [0X] selects radix 16, and the digits up to
    the first other character are the value; without a digit the result is
    [NaN].  (Exact below 2^53; [-0] is [0].) *)
Definition is_hex_digit (c : ascii) : bool :=
  is_digit c
  || ((97 <=? byte c)%N && (byte c <=? 102)%N)
  || ((65 <=? byte c)%N && (byte c <=? 70)%N).

Definition hex_digit_value (c : ascii) : N :=
  if is_digit c then (byte c - 48)%N
  else if (97 <=? byte c)%N then (byte c - 87)%N
  else (byte c - 55)%N.

Fixpoint digits_value (radix : N) (value : ascii -> N) (acc : N) (ds : string) : N :=
  match ds with
  | String c ds' => digits_value radix value (radix * acc + value c)%N ds'
  | EmptyString => acc
  end.

Definition parseInt_js (text : string) : JsNumber :=
  let s := trim_start text in
  let negative := match s with
                  | String c _ => Ascii.eqb c "-"
                  | EmptyString => false
                  end in
  let s := match s with
           | String c r => if Ascii.eqb c "-" || Ascii.eqb c "+" then r else s
           | EmptyString => s
           end in
  let hex := match s with
             | String z (String x _) =>
                 Ascii.eqb z "0" && (Ascii.eqb x "x" || Ascii.eqb x "X")
             | _ => false
             end in
  let s := match s with
           | String _ (String _ r) => if hex then r else s
           | _ => s
           end in
  let ds := fst (span_class (if hex then is_hex_digit else is_digit) s) in
  let value := if hex then digits_value 16 hex_digit_value 0 ds
               else digits_value 10 digit_value 0 ds in
  match ds with
  | EmptyString => NaN
  | _ => Num (if negative then - Z.of_N value else Z.of_N value)
  end.

(** ** lib/youtube-client.ts: pure functions *)

(** One pattern of [extractVideoId]: alternative literal prefixes followed by
    the capture group [([a-zA-Z0-9_-]{11})].  [match_here] is the match
    anchored at the current position: the alternatives are tried in order,
    and a later one is tried when the capture fails after an earlier one. *)
Fixpoint match_here (alts : list string) (s : string) : option string :=
  match alts with
  | [] => None
  | a :: alts' =>
      match strip_prefix a s with
      | Some r =>
          match take_class is_id_char 11 r with
          | Some (id, _) => Some id
          | None => match_here alts' s
          end
      | None => match_here alts' s
      end
  end.

(** [url.match(pattern)] for a pattern without flags: the leftmost position
    at which the pattern matches; the result is capture group 1. *)
Fixpoint regex_search (alts : list string) (s : string) : option string :=
  match match_here alts s with
  | Some id => Some id
  | None =>
      match s with
      | String _ s' => regex_search alts s'
      | EmptyString => None
      end
  end.

Definition patterns : list (list string) :=
  [ ["youtube.com/watch?v="; "youtu.be/"; "youtube.com/embed/"];
    ["youtube.com/v/"] ].

Definition extractVideoId (url : string) : Outcome string :=
  let fix loop (ps : list (list string)) : Outcome string :=
    match ps with
    | pattern :: ps' =>
        match regex_search pattern url with
        | Some m1 => Ok m1
        | None => loop ps'
        end
    | [] => Throw (PlainError "Invalid YouTube URL format")
    end in
  loop patterns.

(** The leftmost occurrence of ["PT"]; the result is what follows it. *)
Fixpoint find_PT (s : string) : option string :=
  match strip_prefix "PT" s with
  | Some r => Some r
  | None =>
      match s with
      | String _ s' => find_PT s'
      | EmptyString => None
      end
  end.

(** An optional group [(?:(\d+)X)?]: the longest run of digits, which must
    be non-empty and followed by the unit letter; otherwise the group
    matches nothing and consumes nothing. *)
Definition opt_group (unit_letter : ascii) (s : string) : option string * string :=
  match span_class is_digit s with
  | (String d ds, String c r) =>
      if Ascii.eqb c unit_letter then (Some (String d ds), r) else (None, s)
  | _ => (None, s)
  end.

Definition group_value (g : option string) : N :=
  match g with
  | Some ds => parseInt ds
  | None => 0%N
  end.

(** [if (b) parts.push(x)]. *)
Definition push_if (b : bool) (x : string) (parts : list string) : list string :=
  if b then List.app parts [x] else parts.

Definition parseDuration (duration : string) : string :=
  match find_PT duration with
  | None => duration
  | Some r0 =>
      let (m1, r1) := opt_group "H" r0 in
      let (m2, r2) := opt_group "M" r1 in
      let (m3, _) := opt_group "S" r2 in
      let hours := group_value m1 in
      let minutes := group_value m2 in
      let seconds := group_value m3 in
      let parts := [] in
      let parts := push_if (0 <? hours)%N (show_N hours ++ "h") parts in
      let parts := push_if (0 <? minutes)%N (show_N minutes ++ "m") parts in
      let parts := push_if (0 <? seconds)%N (show_N seconds ++ "s") parts in
      match join " " parts with
      | EmptyString => "0s"
      | joined => joined
      end
  end.


(** [url.includes('youtube.com') || url.includes('youtu.be')]: the refinement
    of the [youtube_url] parameter of [parseYoutubePRP]. *)
Fixpoint includes (s needle : string) : bool :=
  match strip_prefix needle s with
  | Some _ => true
  | None =>
      match s with
      | String _ s' => includes s' needle
      | EmptyString => false
      end
  end.

Definition youtube_url_refine (url : string) : bool :=
  includes url "youtube.com" || includes url "youtu.be".

(** ** JSON values and the JavaScript operations on them *)

#[local] Unset Elimination Schemes.
Inductive json :=
| JNull
| JBool (b : bool)
| JNum (n : Z)
| JStr (s : string)
| JArr (items : list json)
| JObj (fields : list (string * json)).
#[local] Set Elimination Schemes.

(** A JavaScript value read from parsed JSON: [None] is [undefined]. *)
Definition jsval := option json.

Fixpoint assoc {A : Type} (k : string) (l : list (string * A)) : option A :=
  match l with
  | [] => None
  | (k', v) :: l' => if String.eqb k k' then Some v else assoc k l'
  end.

(** Truthiness, as tested by [!x], [x || y] and [if (x)]. *)
Definition truthy (v : jsval) : bool :=
  match v with
  | None | Some JNull => false
  | Some (JBool b) => b
  | Some (JNum n) => negb (n =? 0)%Z
  | Some (JStr s) => negb (String.eqb s "")
  | Some (JArr _) | Some (JObj _) => true
  end.

Definition nullish_error : JsError :=
  TypeError "Cannot read properties of undefined".

(** [v.k]: reading a property of [undefined] or [null] throws. *)
Definition prop (v : jsval) (k : string) : Outcome jsval :=
  match v with
  | None | Some JNull => Throw nullish_error
  | Some (JObj fields) => Ok (assoc k fields)
  | Some (JArr items) =>
      if String.eqb k "length" then Ok (Some (JNum (Z.of_nat (List.length items))))
      else Ok None
  | Some (JStr s) =>
      if String.eqb k "length" then
        Ok (Some (JNum (Z.of_nat (List.length (code_units s)))))
      else Ok None
  | Some (JBool _) | Some (JNum _) => Ok None
  end.

(** [v[i]]. *)
Definition index (v : jsval) (i : nat) : Outcome jsval :=
  match v with
  | None | Some JNull => Throw nullish_error
  | Some (JArr items) => Ok (nth_error items i)
  | Some (JStr s) => Ok (option_map JStr (nth_error (code_units s) i))
  | Some _ => Ok None
  end.

(** Optional chaining [v?.k] and [v?.[i]]. *)
Definition opt_prop (v : jsval) (k : string) : Outcome jsval :=
  match v with
  | None | Some JNull => Ok None
  | _ => prop v k
  end.

Definition opt_index (v : jsval) (i : nat) : Outcome jsval :=
  match v with
  | None | Some JNull => Ok None
  | _ => index v i
  end.

Definition bindO {A B : Type} (o : Outcome A) (f : A -> Outcome B) : Outcome B :=
  match o with
  | Ok a => f a
  | Throw e => Throw e
  end.

(** [String(error)] inside a template literal. *)
Definition error_to_string (e : JsError) : string :=
  match e with
  | PlainError m => "Error: " ++ m
  | APIError YouTube m _ _ => "YouTubeAPIError: " ++ m
  | APIError Gemini m _ _ => "GeminiAPIError: " ++ m
  | APIError Notion m _ _ => "NotionAPIError: " ++ m
  | SyntaxError m => "SyntaxError: " ++ m
  | ZodError m => "ZodError: " ++ m
  | TypeError m => "TypeError: " ++ m
  | PostgresError m => "PostgresError: " ++ m
  end.

Definition show_Z (z : Z) : string := NilZero.string_of_int (Z.to_int z).
Definition show_nat (n : nat) : string := show_N (N.of_nat n).

(** ** The world the tools run in *)

Record Request := {
  req_client : ClientName;
  req_method : string;
  req_url : string
}.

(** What [fetch] resolves to: status, the [Retry-After] header and the body
    (read by [response.text()] or parsed by [response.json()]). *)
Record Response := {
  status : Z;
  retry_after : option string;
  body : string
}.

Inductive FetchResult :=
| NetworkFailure (reason : string)
| Reply (r : Response).

Definition response_ok (r : Response) : bool :=
  (200 <=? status r)%Z && (status r <=? 299)%Z.

Inductive TaskStatus := pending | in_progress | completed | blocked.

Definition TaskStatus_eqb (a b : TaskStatus) : bool :=
  match a, b with
  | pending, pending | in_progress, in_progress
  | completed, completed | blocked, blocked => true
  | _, _ => false
  end.

Inductive SyncStatus := not_synced | syncing | synced | failed.

Definition show_SyncStatus (s : SyncStatus) : string :=
  match s with
  | not_synced => "not_synced"
  | syncing => "syncing"
  | synced => "synced"
  | failed => "failed"
  end.

(** [PRPTask] and [PRPContent] of types/prp-types.ts, as the clients build
    them. *)
Record PRPTask := {
  task_id : string;
  task_prp_id : string;
  task_order : nat;
  task_title : string;
  task_description : string;
  task_type : string;
  task_file_path : option string;
  task_pseudocode : option string;
  task_status : TaskStatus
}.

Record Documentation := {
  doc_type : string;
  doc_path : string;
  doc_why : string
}.

Record PRPContext := {
  documentation : list Documentation;
  codebase_tree : option string;
  gotchas : list string
}.

Record PRPContent := {
  prp_name : string;
  prp_description : string;
  prp_goal : string;
  prp_why : list string;
  prp_what : string;
  prp_success_criteria : list string;
  prp_context : PRPContext;
  prp_tasks : list PRPTask
}.

(** Rows of [parsed_prps] and [prp_tasks] (migration 001).  Timestamps are
    values of [NOW()], [None] is SQL [NULL]. *)
Record DatabasePRPRow := {
  id : string;
  youtube_url : string;
  video_id : string;
  video_title : string;
  video_description : string;
  channel_title : string;
  published_at : string;
  duration : string;
  transcript : string;
  parsed_content : PRPContent;
  created_by : string;
  created_at : nat;
  updated_at : nat;
  notion_page_id : option string;
  notion_sync_status : SyncStatus;
  notion_sync_error : option string;
  notion_synced_at : option nat
}.

Record DatabaseTaskRow := {
  row_id : string;
  row_prp_id : string;
  order_num : nat;
  row_title : string;
  row_description : string;
  row_type : string;
  row_file_path : option string;
  row_pseudocode : option string;
  row_status : TaskStatus;
  row_created_at : nat;
  row_updated_at : nat;
  completed_at : option nat;
  completed_by : option string
}.

(** The relational store: both tables, the current [prp_tasks_type_check]
    constraint and the number of ids [gen_random_uuid()] has handed out. *)
Record Database := {
  parsed_prps : list DatabasePRPRow;
  tasks_table : list DatabaseTaskRow;
  type_check : list string;
  uuids_used : nat
}.

(** What a run does to its surroundings: a request, a pause of the retry
    loop (with its length in milliseconds), a unit of work on the store, a
    line on the console. *)
Inductive Event :=
| EvFetch (r : Request)
| EvDelay (client : ClientName) (attempt : nat) (milliseconds : Q)
| EvDatabase (unit_index : nat)
| EvConsole (message : string).

(** The surroundings of one tool invocation: the upstream services (the
    reply to the n-th [fetch]), the availability of the store for the n-th
    unit of work, the clock, and the built-ins and helpers that are not part
    of the sources.  [Math_random n] is the value [Math.random()] returns to
    the pause that follows the n-th request; [timestamptz_in text] tells
    whether the store reads [text] as a [TIMESTAMP WITH TIME ZONE]. *)
Record Env := {
  fetch_reply : nat -> Request -> FetchResult;
  db_reachable : nat -> bool;
  NOW : nat -> nat;
  gen_random_uuid : nat -> string;
  timestamptz_in : string -> bool;
  Math_random : nat -> Q;
  JSON_parse : string -> Outcome json;
  formatDatabaseError : JsError -> string;
  YOUTUBE_API_KEY : string;
  GEMINI_API_KEY : string;
  GEMINI_MODEL : string;
  NOTION_TOKEN : string
}.

Record World := {
  db : Database;
  log : list Event;
  fetches : nat;
  units : nat
}.

(** ** The monad of the asynchronous code *)

Definition M (A : Type) : Type := Env -> World -> Outcome A * World.

Definition ret {A : Type} (a : A) : M A := fun _ w => (Ok a, w).

Definition throw {A : Type} (e : JsError) : M A := fun _ w => (Throw e, w).

Definition bind {A B : Type} (m : M A) (f : A -> M B) : M B :=
  fun env w =>
    match m env w with
    | (Ok a, w') => f a env w'
    | (Throw e, w') => (Throw e, w')
    end.

(** [try { m } catch (error) { h error }]: the effects of [m] stay. *)
Definition try_catch {A : Type} (m : M A) (h : JsError -> M A) : M A :=
  fun env w =>
    match m env w with
    | (Ok a, w') => (Ok a, w')
    | (Throw e, w') => h e env w'
    end.

Definition lift {A : Type} (o : Outcome A) : M A := fun _ w => (o, w).

Definition ask : M Env := fun env w => (Ok env, w).

Declare Scope m_scope.
Delimit Scope m_scope with M.
Notation "x <- m ;; k" := (bind m (fun x => k))
  (at level 61, m at next level, right associativity) : m_scope.
Notation "m ;;; k" := (bind m (fun _ => k))
  (at level 61, right associativity) : m_scope.
Open Scope m_scope.

Definition emit (ev : Event) : M unit :=
  fun _ w =>
    (Ok tt, {| db := db w; log := log w ++ [ev];
               fetches := fetches w; units := units w |}).

Definition console (message : string) : M unit := emit (EvConsole message).

Definition fetch (r : Request) : M FetchResult :=
  fun env w =>
    (Ok (fetch_reply env (fetches w) r),
     {| db := db w; log := log w ++ [EvFetch r];
        fetches := S (fetches w); units := units w |}).

(** [response.json()]. *)
Definition response_json (r : Response) : M json :=
  fun env w => (JSON_parse env (body r), w).

(** ** The retry loop shared by the three clients

    Each client has its own copy of [makeRequest]; the copies differ in how a
    reply other than 429 is turned into a result ([on_reply]) and in the
    [Retry-After] hint.  [attempts] is the [for] loop, with [remaining]
    counting the iterations still allowed ([maxRetries - attempt]). *)

Definition maxRetries : nat := 3.
Definition baseDelay : Z := 1000.

(** [this.baseDelay * Math.pow(2, attempt)]. *)
Definition backoff (attempt : nat) : Z := baseDelay * 2 ^ Z.of_nat attempt.

(** [this.baseDelay * Math.pow(2, attempt) + Math.random() * 1000], in
    milliseconds (computed exactly, where the source rounds to a double). *)
Definition pause (attempt : nat) (random : Q) : Q :=
  (inject_Z (backoff attempt) + random * 1000)%Q.

(** [delay(attempt)]: every pause follows a request of its loop, so the
    number of requests sent so far tells the draws of a run apart. *)
Definition delay (client : ClientName) (attempt : nat) : M unit :=
  fun env w =>
    emit (EvDelay client attempt (pause attempt (Math_random env (fetches w))))
      env w.

Definition client_label (client : ClientName) : string :=
  match client with
  | YouTube => "YouTube"
  | Gemini => "Gemini"
  | Notion => "Notion"
  end.

Definition instanceof_APIError (client : ClientName) (e : JsError) : bool :=
  match e, client with
  | APIError YouTube _ _ _, YouTube
  | APIError Gemini _ _ _, Gemini
  | APIError Notion _ _ _, Notion => true
  | _, _ => false
  end.

(** [parseInt(response.headers.get('Retry-After') || '60')]. *)
Definition parse_retry_after (header : option string) : JsNumber :=
  parseInt_js (match header with
               | Some (String c s) => String c s
               | Some EmptyString | None => "60"
               end).

Definition rate_limit_error (client : ClientName) (r : Response) : JsError :=
  APIError client (client_label client ++ " API rate limit exceeded") (Some 429%Z)
    (match client with
     | YouTube => Some (parse_retry_after (retry_after r))
     | _ => None
     end).

(** One iteration of the loop either returns from the function or goes on
    to the next iteration ([continue], or the end of the [catch] block). *)
Inductive Iteration (T : Type) :=
| Return (v : T)
| Continue.
Arguments Return {T} v.
Arguments Continue {T}.

Section RetryLoop.
Context {T : Type}.
Variable client : ClientName.
Variable on_reply : Response -> M T.
Variable request : Request.

(** The [catch] block. *)
Definition on_caught (attempt : nat) (error : JsError) : M (Iteration T) :=
  if instanceof_APIError client error then throw error
  else if (attempt =? maxRetries - 1)%nat then
    throw (PlainError (client_label client ++ " API request failed after "
                       ++ show_nat maxRetries ++ " attempts: "
                       ++ error_to_string error))
  else delay client attempt ;;; ret Continue.

(** The body of the [for] loop. *)
Definition iteration (attempt : nat) : M (Iteration T) :=
  try_catch
    (response <- fetch request ;;
     match response with
     | NetworkFailure reason => throw (TypeError reason)
     | Reply r =>
         if (status r =? 429)%Z then
           if (attempt <? maxRetries - 1)%nat then
             delay client attempt ;;; ret Continue
           else throw (rate_limit_error client r)
         else v <- on_reply r ;; ret (Return v)
     end)
    (on_caught attempt).

Fixpoint attempts (remaining attempt : nat) : M T :=
  match remaining with
  | O => throw (PlainError (client_label client ++ " API request failed"))
  | S remaining' =>
      step <- iteration attempt ;;
      match step with
      | Return v => ret v
      | Continue => attempts remaining' (S attempt)
      end
  end.

Definition makeRequest_loop : M T := attempts maxRetries 0.
End RetryLoop.

(** ** More built-ins: [endsWith], coercion to text *)

Definition nl : string := String "010"%char "".

(** [s.endsWith(suffix) ? s.substring(0, s.length - suffix.length) : none]. *)
Fixpoint strip_suffix (suffix s : string) : option string :=
  if String.eqb s suffix then Some ""
  else match s with
       | String c s' => option_map (String c) (strip_suffix suffix s')
       | EmptyString => None
       end.

(** The text a value becomes when it is interpolated or sent as a text
    parameter.  Arrays and objects are rendered as a fixed marker. *)
Definition js_text (j : json) : string :=
  match j with
  | JNull => "null"
  | JBool true => "true"
  | JBool false => "false"
  | JNum n => show_Z n
  | JStr s => s
  | JArr _ | JObj _ => "[object]"
  end.

Definition is_zero_length (v : jsval) : bool :=
  match v with
  | Some (JNum 0) => true
  | _ => false
  end.

Fixpoint traverse {A B : Type} (f : A -> Outcome B) (l : list A) : Outcome (list B) :=
  match l with
  | [] => Ok []
  | a :: l' => bindO (f a) (fun b => bindO (traverse f l') (fun bs => Ok (b :: bs)))
  end.

(** [array.map((x, index) => f x index)], [index] counted from [start]. *)
Fixpoint mapi_from {A B : Type} (start : nat) (f : A -> nat -> B) (l : list A) : list B :=
  match l with
  | [] => []
  | a :: l' => f a start :: mapi_from (S start) f l'
  end.

Definition mapi {A B : Type} (f : A -> nat -> B) (l : list A) : list B :=
  mapi_from 0 f l.

(** [x || null] for an optional string. *)
Definition or_null (s : option string) : option string :=
  match s with
  | Some EmptyString | None => None
  | Some t => Some t
  end.

(** ** zod schemas *)

Definition zod_string (v : jsval) : Outcome string :=
  match v with
  | Some (JStr s) => Ok s
  | _ => Throw (ZodError "Expected string")
  end.

Definition zod_enum (values : list string) (v : jsval) : Outcome string :=
  match v with
  | Some (JStr s) =>
      if existsb (String.eqb s) values then Ok s
      else Throw (ZodError "Invalid enum value")
  | _ => Throw (ZodError "Invalid enum value")
  end.

(** [z.string().nullable().optional()]. *)
Definition zod_nullable_optional_string (v : jsval) : Outcome (option string) :=
  match v with
  | None | Some JNull => Ok None
  | Some (JStr s) => Ok (Some s)
  | Some _ => Throw (ZodError "Expected string")
  end.

Definition zod_array {A : Type} (element : jsval -> Outcome A) (v : jsval)
  : Outcome (list A) :=
  match v with
  | Some (JArr items) => traverse (fun j => element (Some j)) items
  | _ => Throw (ZodError "Expected array")
  end.

(** [z.object({...})]: the value must be an object; [shape] validates its
    fields. *)
Definition zod_object {A : Type} (shape : list (string * json) -> Outcome A) (v : jsval)
  : Outcome A :=
  match v with
  | Some (JObj fields) => shape fields
  | _ => Throw (ZodError "Expected object")
  end.

(** ** lib/youtube-client.ts: the client *)

Record VideoMetadata := {
  md_id : string;
  md_title : string;
  md_description : string;
  md_channelTitle : string;
  md_publishedAt : string;
  md_duration : string
}.

Definition VideoMetadataSchema_parse (vid title description channelTitle
                                        publishedAt duration : jsval)
  : Outcome VideoMetadata :=
  bindO (zod_string vid) (fun i =>
  bindO (zod_string title) (fun t =>
  bindO (zod_string description) (fun d =>
  bindO (zod_string channelTitle) (fun c =>
  bindO (zod_string publishedAt) (fun p =>
  bindO (zod_string duration) (fun u =>
  Ok {| md_id := i; md_title := t; md_description := d;
        md_channelTitle := c; md_publishedAt := p; md_duration := u |})))))).

Module YouTubeClient.

Definition baseUrl : string := "https://www.googleapis.com/youtube/v3".

Definition constructor : M unit :=
  env <- ask ;;
  if String.eqb (YOUTUBE_API_KEY env) "" then
    throw (PlainError "YouTube API key is required")
  else ret tt.

Definition on_reply (r : Response) : M json :=
  if negb (response_ok r) then
    throw (APIError YouTube
             ("YouTube API error: " ++ show_Z (status r) ++ " - " ++ body r)
             (Some (status r)) None)
  else response_json r.

(** The query string is written without percent-encoding. *)
Definition makeRequest (endpoint : string) (params : list (string * string))
  : M json :=
  env <- ask ;;
  let query := join "&" (map (fun kv => fst kv ++ "=" ++ snd kv)
                             (List.app params [("key", YOUTUBE_API_KEY env)])) in
  makeRequest_loop YouTube on_reply
    {| req_client := YouTube; req_method := "GET";
       req_url := baseUrl ++ "/" ++ endpoint ++ "?" ++ query |}.

(** [parseDuration(item.contentDetails.duration)] on a value that need not
    be a string: [duration.match] exists on strings only. *)
Definition parseDuration_value (v : jsval) : Outcome jsval :=
  match v with
  | Some (JStr s) => Ok (Some (JStr (parseDuration s)))
  | None | Some JNull => Throw nullish_error
  | Some _ => Throw (TypeError "duration.match is not a function")
  end.

Definition getVideoMetadata (videoId : string) : M VideoMetadata :=
  response <- makeRequest "videos"
                [("id", videoId); ("part", "snippet,contentDetails")] ;;
  items <- lift (prop (Some response) "items") ;;
  len <- lift (if truthy items then prop items "length" else Ok None) ;;
  if negb (truthy items) || is_zero_length len then
    throw (PlainError ("Video not found: " ++ videoId))
  else
    item <- lift (index items 0) ;;
    lift
      (bindO (prop item "id") (fun vid =>
       bindO (prop item "snippet") (fun snippet =>
       bindO (prop snippet "title") (fun title =>
       bindO (prop snippet "description") (fun description =>
       bindO (prop snippet "channelTitle") (fun channelTitle =>
       bindO (prop snippet "publishedAt") (fun publishedAt =>
       bindO (prop item "contentDetails") (fun contentDetails =>
       bindO (prop contentDetails "duration") (fun raw =>
       bindO (parseDuration_value raw) (fun duration =>
       VideoMetadataSchema_parse vid title description channelTitle
         publishedAt duration)))))))))).

(** The predicate of [captionsResponse.items.find]. *)
Definition is_english (item : json) : Outcome bool :=
  bindO (prop (Some item) "snippet") (fun snippet =>
  bindO (prop snippet "language") (fun language =>
  match language with
  | Some (JStr l) => Ok (String.eqb l "en" || startsWith l "en-")
  | None | Some JNull => Throw nullish_error
  | Some _ => Throw (TypeError "language.startsWith is not a function")
  end)).

Fixpoint find (items : list json) : Outcome jsval :=
  match items with
  | [] => Ok None
  | item :: rest =>
      bindO (is_english item) (fun b => if b then Ok (Some item) else find rest)
  end.

Definition no_transcript_label : string :=
  "[Transcript not available via API. Using video description as fallback]".

Definition failed_transcript_label : string :=
  "[Transcript extraction failed. Using video description]".

(** The [try] block of [getVideoTranscript]. *)
Definition transcript_from_captions (videoId : string) : M string :=
  captionsResponse <- makeRequest "captions"
                        [("videoId", videoId); ("part", "snippet")] ;;
  items <- lift (prop (Some captionsResponse) "items") ;;
  len <- lift (if truthy items then prop items "length" else Ok None) ;;
  if negb (truthy items) || is_zero_length len then
    throw (PlainError "No captions available")
  else
    caption <- lift (match items with
                     | Some (JArr l) =>
                         bindO (find l) (fun found =>
                         if truthy found then Ok found else index items 0)
                     | _ => Throw (TypeError "items.find is not a function")
                     end) ;;
    console ("Captions found for video " ++ videoId
             ++ " but download requires additional permissions") ;;;
    metadata <- getVideoMetadata videoId ;;
    ret (no_transcript_label ++ nl ++ nl ++ md_description metadata).

(** The [catch] block of [getVideoTranscript]. *)
Definition transcript_fallback (videoId : string) (error : JsError) : M string :=
  console ("Failed to get transcript for video " ++ videoId ++ ": "
           ++ error_to_string error) ;;;
  metadata <- getVideoMetadata videoId ;;
  ret (failed_transcript_label ++ nl ++ nl ++ md_description metadata).

Definition getVideoTranscript (videoId : string) : M string :=
  try_catch (transcript_from_captions videoId) (transcript_fallback videoId).

End YouTubeClient.

(** ** lib/gemini-client.ts *)

Definition task_type_enum : list string :=
  ["create"; "modify"; "test"; "deploy"; "analyze"; "design"; "document";
   "research"; "review"; "other"].

Record ValidatedTask := {
  vt_title : string;
  vt_description : string;
  vt_type : string;
  vt_file_path : option string;
  vt_pseudocode : option string
}.

Record ValidatedPRP := {
  v_name : string;
  v_description : string;
  v_goal : string;
  v_why : list string;
  v_what : string;
  v_success_criteria : list string;
  v_context : PRPContext;
  v_tasks : list ValidatedTask
}.

Definition DocumentationSchema : jsval -> Outcome Documentation :=
  zod_object (fun fields =>
    bindO (zod_enum ["url"; "file"; "docfile"] (assoc "type" fields)) (fun t =>
    bindO (zod_string (assoc "path" fields)) (fun p =>
    bindO (zod_string (assoc "why" fields)) (fun w =>
    Ok {| doc_type := t; doc_path := p; doc_why := w |})))).

Definition ContextSchema : jsval -> Outcome PRPContext :=
  zod_object (fun fields =>
    bindO (zod_array DocumentationSchema (assoc "documentation" fields)) (fun d =>
    bindO (zod_nullable_optional_string (assoc "codebase_tree" fields)) (fun c =>
    bindO (zod_array zod_string (assoc "gotchas" fields)) (fun g =>
    Ok {| documentation := d; codebase_tree := c; gotchas := g |})))).

Definition TaskSchema : jsval -> Outcome ValidatedTask :=
  zod_object (fun fields =>
    bindO (zod_string (assoc "title" fields)) (fun t =>
    bindO (zod_string (assoc "description" fields)) (fun d =>
    bindO (zod_enum task_type_enum (assoc "type" fields)) (fun ty =>
    bindO (zod_nullable_optional_string (assoc "file_path" fields)) (fun f =>
    bindO (zod_nullable_optional_string (assoc "pseudocode" fields)) (fun p =>
    Ok {| vt_title := t; vt_description := d; vt_type := ty;
          vt_file_path := f; vt_pseudocode := p |})))))).

Definition PRPResponseSchema_parse : jsval -> Outcome ValidatedPRP :=
  zod_object (fun fields =>
    bindO (zod_string (assoc "name" fields)) (fun n =>
    bindO (zod_string (assoc "description" fields)) (fun d =>
    bindO (zod_string (assoc "goal" fields)) (fun g =>
    bindO (zod_array zod_string (assoc "why" fields)) (fun w =>
    bindO (zod_string (assoc "what" fields)) (fun wh =>
    bindO (zod_array zod_string (assoc "success_criteria" fields)) (fun s =>
    bindO (ContextSchema (assoc "context" fields)) (fun c =>
    bindO (zod_array TaskSchema (assoc "tasks" fields)) (fun ts =>
    Ok {| v_name := n; v_description := d; v_goal := g; v_why := w;
          v_what := wh; v_success_criteria := s; v_context := c;
          v_tasks := ts |}))))))))).

(** The clean-up of the model's text shared by [parsePRPContent] and
    [extractTasks]: [response.trim()], the removal of code-fence markers, and
    a second [trim()].  [response] is whatever [makeRequest] returned. *)
Definition clean_text (text : string) : string :=
  let cleaned := trim text in
  let cleaned := match strip_prefix "```json" cleaned with
                 | Some rest => rest
                 | None => cleaned
                 end in
  let cleaned := match strip_prefix "```" cleaned with
                 | Some rest => rest
                 | None => cleaned
                 end in
  let cleaned := match strip_suffix "```" cleaned with
                 | Some rest => rest
                 | None => cleaned
                 end in
  trim cleaned.

Definition clean_response (response : json) : Outcome string :=
  match response with
  | JStr text => Ok (clean_text text)
  | _ => Throw (TypeError "response.trim is not a function")
  end.

Module GeminiClient.

Definition baseUrl : string := "https://generativelanguage.googleapis.com/v1beta".

Definition constructor : M unit :=
  env <- ask ;;
  if String.eqb (GEMINI_API_KEY env) "" then
    throw (PlainError "Gemini API key is required")
  else ret tt.

Definition JSON_parse_M (text : string) : M json :=
  fun env w => (JSON_parse env text, w).

(** [result.candidates[0]?.content?.parts?.[0]?.text]. *)
Definition candidate_text (candidates : jsval) : Outcome jsval :=
  bindO (index candidates 0) (fun c0 =>
  bindO (opt_prop c0 "content") (fun content =>
  bindO (opt_prop content "parts") (fun parts =>
  bindO (opt_index parts 0) (fun p0 =>
  opt_prop p0 "text")))).

Definition on_reply (r : Response) : M json :=
  if negb (response_ok r) then
    throw (APIError Gemini
             ("Gemini API error: " ++ show_Z (status r) ++ " - " ++ body r)
             (Some (status r)) None)
  else
    result <- response_json r ;;
    candidates <- lift (prop (Some result) "candidates") ;;
    len <- lift (if truthy candidates then prop candidates "length" else Ok None) ;;
    if negb (truthy candidates) || is_zero_length len then
      throw (APIError Gemini "No response generated from Gemini API" None None)
    else
      text <- lift (candidate_text candidates) ;;
      match text with
      | Some t => if truthy text then ret t
                  else throw (APIError Gemini
                                "Invalid response structure from Gemini API" None None)
      | None => throw (APIError Gemini
                         "Invalid response structure from Gemini API" None None)
      end.

(** The prompt and the generation settings travel in the request body,
    which the model of [fetch] does not inspect. *)
Definition request (model : string) (env : Env) : Request :=
  {| req_client := Gemini; req_method := "POST";
     req_url := baseUrl ++ "/models/" ++ model ++ ":generateContent?key="
                ++ GEMINI_API_KEY env |}.

Definition makeRequest (model : string) : M json :=
  env <- ask ;;
  makeRequest_loop Gemini on_reply (request model env).

Definition content_task (task : ValidatedTask) (index : nat) : PRPTask :=
  {| task_id := ""; task_prp_id := ""; task_order := index + 1;
     task_title := vt_title task; task_description := vt_description task;
     task_type := vt_type task;
     task_file_path := or_null (vt_file_path task);
     task_pseudocode := or_null (vt_pseudocode task);
     task_status := pending |}.

Definition parsePRPContent (model : string) : M PRPContent :=
  try_catch
    (response <- makeRequest model ;;
     cleanedResponse <- lift (clean_response response) ;;
     parsedContent <- JSON_parse_M cleanedResponse ;;
     validated <- lift (PRPResponseSchema_parse (Some parsedContent)) ;;
     ret {| prp_name := v_name validated;
            prp_description := v_description validated;
            prp_goal := v_goal validated;
            prp_why := v_why validated;
            prp_what := v_what validated;
            prp_success_criteria := v_success_criteria validated;
            prp_context := v_context validated;
            prp_tasks := mapi content_task (v_tasks validated) |})
    (fun error =>
       match error with
       | ZodError m => throw (PlainError ("Invalid PRP structure from AI: " ++ m))
       | SyntaxError m => throw (PlainError ("Invalid JSON response from AI: " ++ m))
       | _ => throw error
       end).

(** [x || fallback] followed by the use of the value as text. *)
Definition text_or (v : jsval) (fallback : string) : string :=
  match v with
  | Some j => if truthy v then js_text j else fallback
  | None => fallback
  end.

Definition optional_text (v : jsval) : option string :=
  match v with
  | Some j => if truthy v then Some (js_text j) else None
  | None => None
  end.

(** One element of [tasks.slice(0, maxTasks).map(...)]; [existing] is
    [prpContent.tasks?.length || 0]. *)
Definition extracted_task (existing : nat) (task : json) (index : nat)
  : Outcome PRPTask :=
  bindO (prop (Some task) "title") (fun title =>
  bindO (prop (Some task) "description") (fun description =>
  bindO (prop (Some task) "type") (fun type =>
  bindO (prop (Some task) "file_path") (fun file_path =>
  bindO (prop (Some task) "pseudocode") (fun pseudocode =>
  Ok {| task_id := ""; task_prp_id := "";
        task_order := existing + index + 1;
        task_title := text_or title ("Task " ++ show_nat (index + 1));
        task_description := text_or description "";
        task_type := text_or type "other";
        task_file_path := optional_text file_path;
        task_pseudocode := optional_text pseudocode;
        task_status := pending |}))))).

Fixpoint extracted_tasks (existing : nat) (tasks : list json) (index : nat)
  : Outcome (list PRPTask) :=
  match tasks with
  | [] => Ok []
  | task :: rest =>
      bindO (extracted_task existing task index) (fun t =>
      bindO (extracted_tasks existing rest (S index)) (fun ts => Ok (t :: ts)))
  end.

Definition extractTasks (model : string) (prpContent : PRPContent) (maxTasks : nat)
  : M (list PRPTask) :=
  try_catch
    (response <- makeRequest model ;;
     cleanedResponse <- lift (clean_response response) ;;
     tasks <- JSON_parse_M cleanedResponse ;;
     match tasks with
     | JArr items =>
         lift (extracted_tasks (List.length (prp_tasks prpContent))
                 (firstn maxTasks items) 0)
     | _ => throw (PlainError "Expected array of tasks from AI")
     end)
    (fun error =>
       match error with
       | SyntaxError m => throw (PlainError ("Invalid JSON response from AI: " ++ m))
       | _ => throw error
       end).

End GeminiClient.

(** ** lib/notion-client.ts *)

Module NotionClient.

Definition baseUrl : string := "https://api.notion.com/v1".

Definition constructor : M unit :=
  env <- ask ;;
  if String.eqb (NOTION_TOKEN env) "" then
    throw (PlainError "Notion integration token is required")
  else ret tt.

Definition on_reply (r : Response) : M json :=
  if negb (response_ok r) then
    error <- response_json r ;;
    message <- lift (prop (Some error) "message") ;;
    throw (APIError Notion
             (match message with
              | Some m => if truthy message then js_text m
                          else "Notion API error: " ++ show_Z (status r)
              | None => "Notion API error: " ++ show_Z (status r)
              end)
             (Some (status r)) None)
  else response_json r.

Definition makeRequest (method endpoint : string) : M json :=
  makeRequest_loop Notion on_reply
    {| req_client := Notion; req_method := method;
       req_url := baseUrl ++ "/" ++ endpoint |}.

Definition validateDatabase (databaseId : string) : M bool :=
  try_catch
    (makeRequest "GET" ("databases/" ++ databaseId) ;;; ret true)
    (fun error =>
       match error with
       | APIError Notion _ (Some 404%Z) _ => ret false
       | _ => throw error
       end).

(** The page properties and the first 100 content blocks travel in the
    request body; the result is [response.id], whatever the reply holds
    there. *)
Definition createDatabasePage (databaseId : string) : M jsval :=
  isValid <- validateDatabase databaseId ;;
  if negb isValid then
    throw (APIError Notion
             ("Database " ++ databaseId ++ " not found or not accessible")
             (Some 404%Z) None)
  else
    response <- makeRequest "POST" "pages" ;;
    lift (prop (Some response) "id").

Definition updateDatabasePage (pageId : string) : M unit :=
  makeRequest "PATCH" ("pages/" ++ pageId) ;;; ret tt.

Definition positive_length (v : jsval) : bool :=
  match v with
  | Some (JNum n) => (0 <? n)%Z
  | _ => false
  end.

Definition findPageByPRPId (databaseId prpId : string) : M jsval :=
  response <- makeRequest "POST" ("databases/" ++ databaseId ++ "/query") ;;
  results <- lift (prop (Some response) "results") ;;
  len <- lift (if truthy results then prop results "length" else Ok None) ;;
  if truthy results && positive_length len then
    lift (bindO (index results 0) (fun first => prop first "id"))
  else ret (Some JNull).

End NotionClient.

(** ** The relational store (migrations/001 and 002) *)

Definition migration_001_types : list string :=
  ["create"; "modify"; "test"; "deploy"; "other"].

Definition migration_002_types : list string :=
  ["create"; "modify"; "test"; "deploy"; "analyze"; "design"; "document";
   "research"; "review"; "other"].

Definition admits (allowed : list string) (type : string) : bool :=
  existsb (String.eqb type) allowed.

(** Migration 001 creates both tables, empty. *)
Definition migration_001 : Database :=
  {| parsed_prps := []; tasks_table := [];
     type_check := migration_001_types; uuids_used := 0 |}.


(** A statement run inside a unit of work: it sees the id generator and the
    value of [NOW()]. *)
Definition Statement (A : Type) : Type :=
  (nat -> string) -> nat -> Database -> Outcome A * Database.

(** Modelled from the spec: [withDatabase] of src/database/utils.ts, which is
    not among the sources.  The spec describes a scoped-connection executor
    that acquires a connection, runs the work and releases the connection
    on every exit path, each unit of work being atomic: when the work throws,
    nothing of it is applied.  Acquiring the connection can fail. *)
Definition withDatabase {A : Type} (work : Statement A) : M A :=
  fun env w =>
    let n := units w in
    let opened (d : Database) :=
      {| db := d; log := log w ++ [EvDatabase n];
         fetches := fetches w; units := S n |} in
    if db_reachable env n then
      match work (gen_random_uuid env) (NOW env n) (db w) with
      | (Ok a, d') => (Ok a, opened d')
      | (Throw e, _) => (Throw e, opened (db w))
      end
    else (Throw (PlainError "Failed to connect to the database"), opened (db w)).

Definition has_id (prp_id : string) (r : DatabasePRPRow) : bool :=
  String.eqb (id r) prp_id.

(** [SELECT * FROM parsed_prps WHERE id = prp_id], first row. *)
Definition select_prp (prp_id : string) (d : Database) : option DatabasePRPRow :=
  List.find (has_id prp_id) (parsed_prps d).

Definition with_prps (d : Database) (rows : list DatabasePRPRow) : Database :=
  {| parsed_prps := rows; tasks_table := tasks_table d;
     type_check := type_check d; uuids_used := uuids_used d |}.

Definition with_tasks (d : Database) (rows : list DatabaseTaskRow) : Database :=
  {| parsed_prps := parsed_prps d; tasks_table := rows;
     type_check := type_check d; uuids_used := uuids_used d |}.

(** [INSERT INTO parsed_prps (...) VALUES (...) RETURNING *]: the columns not
    listed take their defaults.  [published_at] is a [TIMESTAMP WITH TIME
    ZONE]: the statement fails when the store does not read
    [metadata.publishedAt] as one ([timestamptz_in] of the surroundings). *)
Definition insert_prp (timestamptz_in : string -> bool)
    (youtube_url videoId : string) (metadata : VideoMetadata)
    (transcript : string) (prpContent : PRPContent) (login : string)
  : Statement DatabasePRPRow :=
  fun uuid now d =>
    let row :=
      {| id := uuid (uuids_used d);
         youtube_url := youtube_url; video_id := videoId;
         video_title := md_title metadata;
         video_description := md_description metadata;
         channel_title := md_channelTitle metadata;
         published_at := md_publishedAt metadata;
         duration := md_duration metadata;
         transcript := transcript; parsed_content := prpContent;
         created_by := login; created_at := now; updated_at := now;
         notion_page_id := None; notion_sync_status := not_synced;
         notion_sync_error := None; notion_synced_at := None |} in
    if timestamptz_in (md_publishedAt metadata) then
      (Ok row,
       {| parsed_prps := parsed_prps d ++ [row]; tasks_table := tasks_table d;
          type_check := type_check d; uuids_used := S (uuids_used d) |})
    else
      (Throw (PostgresError
                ("invalid input syntax for type timestamp with time zone: "
                 ++ dq ++ md_publishedAt metadata ++ dq)), d).

(** The objects of [taskValues]. *)
Record TaskValues := {
  tv_prp_id : string;
  tv_order_num : nat;
  tv_title : string;
  tv_description : string;
  tv_type : string;
  tv_file_path : option string;
  tv_pseudocode : option string;
  tv_status : TaskStatus
}.

Definition task_row (uuid : nat -> string) (now first : nat) (v : TaskValues)
    (index : nat) : DatabaseTaskRow :=
  {| row_id := uuid (first + index); row_prp_id := tv_prp_id v;
     order_num := tv_order_num v; row_title := tv_title v;
     row_description := tv_description v; row_type := tv_type v;
     row_file_path := tv_file_path v; row_pseudocode := tv_pseudocode v;
     row_status := tv_status v; row_created_at := now; row_updated_at := now;
     completed_at := None; completed_by := None |}.

(** The constraints of [prp_tasks] a new row has to meet: the check on
    [type] and the foreign key to [parsed_prps] (the check on [status] holds
    by typing). *)
Definition type_check_ok (d : Database) (v : TaskValues) : bool :=
  admits (type_check d) (tv_type v).

Definition foreign_key_ok (d : Database) (v : TaskValues) : bool :=
  existsb (has_id (tv_prp_id v)) (parsed_prps d).

Definition task_constraints_ok (d : Database) (v : TaskValues) : bool :=
  foreign_key_ok d v && type_check_ok d v.

Definition check_violation : string :=
  "new row for relation " ++ dq ++ "prp_tasks" ++ dq
  ++ " violates check constraint " ++ dq ++ "prp_tasks_type_check" ++ dq.

Definition foreign_key_violation : string :=
  "insert or update on table " ++ dq ++ "prp_tasks" ++ dq
  ++ " violates foreign key constraint " ++ dq ++ "prp_tasks_prp_id_fkey" ++ dq.

(** [INSERT INTO prp_tasks ${db(taskValues)} RETURNING *]: all rows or none.
    The helper [db(taskValues)] reads the column names off the first
    object, so an empty array makes it throw before anything is sent.  The
    check constraint is tested as each row is inserted, the foreign key at
    the end of the statement. *)
Definition insert_tasks (values : list TaskValues) : Statement (list DatabaseTaskRow) :=
  fun uuid now d =>
    match values with
    | [] => (Throw (TypeError "Cannot convert undefined or null to object"), d)
    | _ :: _ =>
        if negb (forallb (type_check_ok d) values) then
          (Throw (PostgresError check_violation), d)
        else if negb (forallb (foreign_key_ok d) values) then
          (Throw (PostgresError foreign_key_violation), d)
        else
          let rows := mapi (task_row uuid now (uuids_used d)) values in
          (Ok rows,
           {| parsed_prps := parsed_prps d; tasks_table := tasks_table d ++ rows;
              type_check := type_check d;
              uuids_used := uuids_used d + List.length values |})
    end.

(** [UPDATE prp_tasks SET status = ..., updated_at = NOW() [, completed_at =
    NOW(), completed_by = login] WHERE id = task_id]: the two completion
    columns are part of the statement only when the new status is
    [completed]. *)
Definition set_status (task_id : string) (status : TaskStatus) (login : string)
    (now : nat) (r : DatabaseTaskRow) : DatabaseTaskRow :=
  if String.eqb (row_id r) task_id then
    {| row_id := row_id r; row_prp_id := row_prp_id r; order_num := order_num r;
       row_title := row_title r; row_description := row_description r;
       row_type := row_type r; row_file_path := row_file_path r;
       row_pseudocode := row_pseudocode r;
       row_status := status;
       row_created_at := row_created_at r; row_updated_at := now;
       completed_at := match status with
                       | completed => Some now
                       | _ => completed_at r
                       end;
       completed_by := match status with
                       | completed => Some login
                       | _ => completed_by r
                       end |}
  else r.

Definition update_task_status (task_id : string) (status : TaskStatus)
    (login : string) (now : nat) (d : Database)
  : option DatabaseTaskRow * Database :=
  let table := map (set_status task_id status login now) (tasks_table d) in
  (List.find (fun r => String.eqb (row_id r) task_id) table, with_tasks d table).

(** The updates of the sync state.  A trigger refreshes [updated_at]. *)
Definition set_synced (prp_id : string) (page : option string) (clear_error : bool)
    (now : nat) (r : DatabasePRPRow) : DatabasePRPRow :=
  if has_id prp_id r then
    {| id := id r; youtube_url := youtube_url r; video_id := video_id r;
       video_title := video_title r; video_description := video_description r;
       channel_title := channel_title r; published_at := published_at r;
       duration := duration r; transcript := transcript r;
       parsed_content := parsed_content r; created_by := created_by r;
       created_at := created_at r; updated_at := now;
       notion_page_id := page; notion_sync_status := synced;
       notion_sync_error := if clear_error then None else notion_sync_error r;
       notion_synced_at := Some now |}
  else r.

Definition set_failed (prp_id : string) (message : string)
    (now : nat) (r : DatabasePRPRow) : DatabasePRPRow :=
  if has_id prp_id r then
    {| id := id r; youtube_url := youtube_url r; video_id := video_id r;
       video_title := video_title r; video_description := video_description r;
       channel_title := channel_title r; published_at := published_at r;
       duration := duration r; transcript := transcript r;
       parsed_content := parsed_content r; created_by := created_by r;
       created_at := created_at r; updated_at := now;
       notion_page_id := notion_page_id r; notion_sync_status := failed;
       notion_sync_error := Some message;
       notion_synced_at := notion_synced_at r |}
  else r.

(** [UPDATE parsed_prps SET notion_page_id = ${notionPageId},
    notion_sync_status = 'synced', notion_synced_at = NOW() [,
    notion_sync_error = NULL] WHERE id = prp_id].  The driver refuses an
    [undefined] parameter; [null] is stored as [NULL], any other value as
    its text. *)
Definition mark_synced (prp_id : string) (notionPageId : jsval) (clear_error : bool)
  : Statement unit :=
  fun _ now d =>
    match notionPageId with
    | None => (Throw (PlainError "UNDEFINED_VALUE: Undefined values are not allowed"), d)
    | Some page =>
        let stored := match page with
                      | JNull => None
                      | _ => Some (js_text page)
                      end in
        (Ok tt, with_prps d (map (set_synced prp_id stored clear_error now)
                               (parsed_prps d)))
    end.

(** [UPDATE parsed_prps SET notion_sync_status = 'failed', notion_sync_error =
    ${message} WHERE id = prp_id]. *)
Definition mark_failed (prp_id : string) (message : string) : Statement unit :=
  fun _ now d =>
    (Ok tt, with_prps d (map (set_failed prp_id message now) (parsed_prps d))).

(** ** The tool handlers (src/tools) *)

(** Modelled from the spec: [createSuccessResponse] and [createErrorResponse]
    of src/types.ts, which is not among the sources.  Every tool response is
    either a success envelope [{message, data}] or an error envelope
    [{error, details}].  Fields whose value is [undefined] are left out. *)
Inductive ToolResponse :=
| SuccessResponse (message : string) (data : list (string * json))
| ErrorResponse (error : string) (details : list (string * json)).

Definition createSuccessResponse (message : string) (data : list (string * json))
  : ToolResponse := SuccessResponse message data.

Definition createErrorResponse (error : string) (details : list (string * json))
  : ToolResponse := ErrorResponse error details.

Definition field (k : string) (v : jsval) : list (string * json) :=
  match v with
  | Some j => [(k, j)]
  | None => []
  end.

Definition ALLOWED_USERNAMES : list string := ["coleam00"; "vedantparmar12"].

Definition ALLOWED_USERNAMES_has (login : string) : bool :=
  existsb (String.eqb login) ALLOWED_USERNAMES.

Definition insufficient_permissions (error login : string) : ToolResponse :=
  createErrorResponse error
    [("requiredRole", JStr "privileged"); ("userRole", JStr "standard");
     ("user", JStr login)].

(** [env.GEMINI_MODEL || 'gemini-2.0-flash-exp']. *)
Definition gemini_model (env : Env) : string :=
  match GEMINI_MODEL env with
  | EmptyString => "gemini-2.0-flash-exp"
  | m => m
  end.

(** [attempt m] runs [m] and hands its outcome to the code that follows: the
    handlers whose [catch] block reads a variable assigned inside the [try]
    block are written with it. *)
Definition attempt {A : Type} (m : M A) : M (Outcome A) :=
  fun env w => let (r, w') := m env w in (Ok r, w').

(** [SELECT * FROM parsed_prps WHERE id = prp_id], throwing when no row
    matches. *)
Definition fetch_prp (prp_id : string) : Statement DatabasePRPRow :=
  fun _ _ d =>
    match select_prp prp_id d with
    | Some row => (Ok row, d)
    | None => (Throw (PlainError ("PRP not found: " ++ prp_id)), d)
    end.

(** *** youtube-tools.ts: parseYoutubePRP *)

Definition initial_task_values (prp_id : string) (task : PRPTask) (index : nat)
  : TaskValues :=
  {| tv_prp_id := prp_id; tv_order_num := index + 1;
     tv_title := task_title task; tv_description := task_description task;
     tv_type := task_type task;
     tv_file_path := or_null (task_file_path task);
     tv_pseudocode := or_null (task_pseudocode task);
     tv_status := pending |}.

(** The unit of work of [parseYoutubePRP]: the PRP row, then its tasks. *)
Definition store_prp (timestamptz_in : string -> bool)
    (youtube_url videoId : string) (metadata : VideoMetadata)
    (transcript : string) (prpContent : PRPContent) (login : string)
  : Statement DatabasePRPRow :=
  fun uuid now d =>
    match insert_prp timestamptz_in youtube_url videoId metadata transcript
            prpContent login uuid now d with
    | (Ok prpRow, d1) =>
        match prp_tasks prpContent with
        | [] => (Ok prpRow, d1)
        | tasks =>
            match insert_tasks (mapi (initial_task_values (id prpRow)) tasks)
                    uuid now d1 with
            | (Ok _, d2) => (Ok prpRow, d2)
            | (Throw e, d2) => (Throw e, d2)
            end
        end
    | (Throw e, d1) => (Throw e, d1)
    end.

Record Parsed := {
  parsed_prp : DatabasePRPRow;
  parsed_prpContent : PRPContent;
  parsed_metadata : VideoMetadata
}.

(** From the video id to the stored PRP. *)
Definition parse_and_store (login youtube_url videoId : string) : M Parsed :=
  env <- ask ;;
  YouTubeClient.constructor ;;;
  GeminiClient.constructor ;;;
  console ("Fetching metadata for video: " ++ videoId) ;;;
  metadata <- YouTubeClient.getVideoMetadata videoId ;;
  console ("Fetching transcript for video: " ++ videoId) ;;;
  transcript <- YouTubeClient.getVideoTranscript videoId ;;
  console ("Parsing PRP content with AI for video: " ++ md_title metadata) ;;;
  prpContent <- GeminiClient.parsePRPContent (gemini_model env) ;;
  prp <- withDatabase
           (store_prp (timestamptz_in env) youtube_url videoId metadata transcript
              prpContent login) ;;
  console ("Successfully parsed PRP: " ++ id prp) ;;;
  ret {| parsed_prp := prp; parsed_prpContent := prpContent;
         parsed_metadata := metadata |}.

(** The [catch] block of the inline sync. *)
Definition record_sync_failure (prp_id : string) (error : JsError) : M unit :=
  console ("Failed to sync to Notion: " ++ error_to_string error) ;;;
  withDatabase (mark_failed prp_id (error_message error)).

(** The first part of the [try] block of the inline sync, up to the
    assignment of [notionPageId]. *)
Definition inline_create (notion_database_id : string) : M jsval :=
  console ("Auto-syncing to Notion database: " ++ notion_database_id) ;;;
  NotionClient.constructor ;;;
  NotionClient.createDatabasePage notion_database_id.

(** The rest of the [try] block. *)
Definition inline_mark_synced (prp_id : string) (notionPageId : jsval) : M unit :=
  withDatabase (mark_synced prp_id notionPageId false) ;;;
  console ("Successfully synced to Notion: "
           ++ match notionPageId with Some j => js_text j | None => "undefined" end).

(** [if (auto_sync && notion_database_id) { try {...} catch {...} }]: the
    values of [notionPageId] and [syncStatus] afterwards. *)
Definition auto_sync_stage (prp_id : string) (notion_database_id : option string)
    (auto_sync : bool) : M (jsval * SyncStatus) :=
  match notion_database_id with
  | Some (String c s) =>
      if auto_sync then
        created <- attempt (inline_create (String c s)) ;;
        match created with
        | Throw error =>
            record_sync_failure prp_id error ;;; ret (None, failed)
        | Ok notionPageId =>
            marked <- attempt (inline_mark_synced prp_id notionPageId) ;;
            match marked with
            | Throw error =>
                record_sync_failure prp_id error ;;; ret (notionPageId, failed)
            | Ok _ => ret (notionPageId, synced)
            end
        end
      else ret (None, not_synced)
  | _ => ret (None, not_synced)
  end.

Definition parse_response (p : Parsed) (notionPageId : jsval) (syncStatus : SyncStatus)
  : ToolResponse :=
  createSuccessResponse
    ("Parsed PRP from YouTube video: " ++ dq ++ md_title (parsed_metadata p) ++ dq)
    ([("prp_id", JStr (id (parsed_prp p)));
      ("prp_name", JStr (prp_name (parsed_prpContent p)));
      ("video_title", JStr (md_title (parsed_metadata p)));
      ("channel_title", JStr (md_channelTitle (parsed_metadata p)));
      ("task_count",
       JNum (Z.of_nat (List.length (prp_tasks (parsed_prpContent p)))))]
     ++ field "notion_page_id" notionPageId
     ++ [("sync_status", JStr (show_SyncStatus syncStatus))])%list.

Definition parse_failed (youtube_url : string) (error : JsError) : M ToolResponse :=
  console ("Error parsing YouTube PRP: " ++ error_to_string error) ;;;
  env <- ask ;;
  ret (createErrorResponse "Failed to parse YouTube PRP"
         [("error", JStr (formatDatabaseError env error));
          ("url", JStr youtube_url)]).

Definition parseYoutubePRP (login youtube_url : string)
    (notion_database_id : option string) (auto_sync : bool) : M ToolResponse :=
  try_catch
    (match extractVideoId youtube_url with
     | Throw error =>
         ret (createErrorResponse "Invalid YouTube URL format"
                [("url", JStr youtube_url);
                 ("error", JStr (error_message error))])
     | Ok videoId =>
         p <- parse_and_store login youtube_url videoId ;;
         s <- auto_sync_stage (id (parsed_prp p)) notion_database_id auto_sync ;;
         ret (parse_response p (fst s) (snd s))
     end)
    (parse_failed youtube_url).

(** *** prp-tools.ts: extractTasks and updateTaskStatus *)

Definition extracted_task_values (prp_id : string) (existing : nat)
    (task : PRPTask) (index : nat) : TaskValues :=
  {| tv_prp_id := prp_id; tv_order_num := existing + index + 1;
     tv_title := task_title task; tv_description := task_description task;
     tv_type := task_type task;
     tv_file_path := or_null (task_file_path task);
     tv_pseudocode := or_null (task_pseudocode task);
     tv_status := pending |}.

Definition task_summary (task : DatabaseTaskRow) : json :=
  JObj [("id", JStr (row_id task));
        ("order", JNum (Z.of_nat (order_num task)));
        ("title", JStr (row_title task));
        ("description", JStr (row_description task));
        ("type", JStr (row_type task));
        ("status", JStr (match row_status task with
                         | pending => "pending"
                         | in_progress => "in_progress"
                         | completed => "completed"
                         | blocked => "blocked"
                         end))].

Definition show_TaskStatus (s : TaskStatus) : string :=
  match s with
  | pending => "pending"
  | in_progress => "in_progress"
  | completed => "completed"
  | blocked => "blocked"
  end.

Definition extractTasks (login prp_id : string) (max_tasks : nat) : M ToolResponse :=
  try_catch
    (if negb (ALLOWED_USERNAMES_has login) then
       ret (insufficient_permissions "Insufficient permissions to extract tasks" login)
     else
       env <- ask ;;
       prp <- withDatabase (fetch_prp prp_id) ;;
       let prpContent := parsed_content prp in
       GeminiClient.constructor ;;;
       console ("Extracting up to " ++ show_nat max_tasks ++ " tasks for PRP: "
                ++ prp_id) ;;;
       newTasks <- GeminiClient.extractTasks (gemini_model env) prpContent max_tasks ;;
       storedTasks <- withDatabase
                        (insert_tasks
                           (mapi (extracted_task_values prp_id
                                    (List.length (prp_tasks prpContent)))
                                 newTasks)) ;;
       console ("Successfully extracted " ++ show_nat (List.length storedTasks)
                ++ " new tasks") ;;;
       ret (createSuccessResponse
              ("Extracted " ++ show_nat (List.length storedTasks)
               ++ " new tasks for PRP " ++ dq ++ prp_name prpContent ++ dq)
              [("prp_id", JStr prp_id);
               ("prp_name", JStr (prp_name prpContent));
               ("new_task_count", JNum (Z.of_nat (List.length storedTasks)));
               ("total_task_count",
                JNum (Z.of_nat (List.length (prp_tasks prpContent)
                                + List.length storedTasks)));
               ("tasks", JArr (map task_summary storedTasks))]))
    (fun error =>
       console ("Error extracting tasks: " ++ error_to_string error) ;;;
       env <- ask ;;
       ret (createErrorResponse "Failed to extract additional tasks"
              [("error", JStr (formatDatabaseError env error));
               ("prp_id", JStr prp_id)])).

(** [parsed_content->>key] in SQL.  The column holds what the driver made
    of the text [JSON.stringify(prpContent)]: a JSON string, not an object,
    and [->>] gives [NULL] for a value that is not an object. *)
Definition parsed_content_field (row : DatabasePRPRow) (key : string)
  : option string := None.

Definition null_or_text (o : option string) : json :=
  match o with
  | Some s => JStr s
  | None => JNull
  end.

(** The unit of work of [updateTaskStatus]: the update, then the name of the
    parent PRP. *)
Definition update_and_lookup (task_id : string) (status : TaskStatus) (login : string)
  : Statement (DatabaseTaskRow * option DatabasePRPRow) :=
  fun _ now d =>
    match update_task_status task_id status login now d with
    | (Some task, d1) => (Ok (task, select_prp (row_prp_id task) d1), d1)
    | (None, d1) => (Throw (PlainError ("Task not found: " ++ task_id)), d1)
    end.

Definition updateTaskStatus (login task_id : string) (status : TaskStatus)
  : M ToolResponse :=
  try_catch
    (result <- withDatabase (update_and_lookup task_id status login) ;;
     match snd result with
     | None => throw nullish_error
     | Some prp =>
         ret (createSuccessResponse
                ("Updated task status to " ++ dq ++ show_TaskStatus status ++ dq)
                [("task_id", JStr task_id);
                 ("task_title", JStr (row_title (fst result)));
                 ("new_status", JStr (show_TaskStatus status));
                 ("prp_id", JStr (row_prp_id (fst result)));
                 ("prp_name", null_or_text (parsed_content_field prp "name"));
                 ("updated_by", JStr login)])
     end)
    (fun error =>
       console ("Error updating task status: " ++ error_to_string error) ;;;
       env <- ask ;;
       ret (createErrorResponse "Failed to update task status"
              [("error", JStr (formatDatabaseError env error));
               ("task_id", JStr task_id)])).

(** *** notion-tools.ts: syncToNotion *)

Fixpoint remove_dashes (s : string) : string :=
  match s with
  | String c s' =>
      if Ascii.eqb c "-" then remove_dashes s' else String c (remove_dashes s')
  | EmptyString => ""
  end.

Definition stored_page_id (prp : DatabasePRPRow) : jsval :=
  match notion_page_id prp with
  | Some page => Some (JStr page)
  | None => Some JNull
  end.

Definition page_text (page : jsval) : string :=
  match page with
  | Some j => js_text j
  | None => "undefined"
  end.

(** What the [try] block of [syncToNotion] ends with: the handler returns
    from inside it, or goes on with the value of [notionPageId]. *)
Inductive SyncStep :=
| Returned (response : ToolResponse)
| Synced (notionPageId : jsval).

(** The [try] block: update the page found, or create a page, or report
    that the PRP is synced already; then record the success. *)
Definition sync_try (prp_id database_id : string) (update_existing : bool)
    (notionPageId existingPageId : jsval) : M SyncStep :=
  step <-
    (if truthy existingPageId && update_existing then
       console ("Updating existing Notion page: " ++ page_text existingPageId) ;;;
       NotionClient.updateDatabasePage (page_text existingPageId) ;;;
       ret (Synced existingPageId)
     else if negb (truthy notionPageId) || negb (truthy existingPageId) then
       console ("Creating new Notion page in database: " ++ database_id) ;;;
       created <- NotionClient.createDatabasePage database_id ;;
       ret (Synced created)
     else
       ret (Returned
              (createErrorResponse "PRP already synced to Notion"
                 (field "notion_page_id" notionPageId
                  ++ [("hint",
                       JStr "Use update_existing=true to update the existing page")])%list))) ;;
  match step with
  | Returned response => ret (Returned response)
  | Synced page =>
      withDatabase (mark_synced prp_id page true) ;;;
      ret (Synced page)
  end.

(** The [catch] block: record the failure, then throw the error again. *)
Definition sync_catch (prp_id : string) (error : JsError) : M SyncStep :=
  withDatabase (mark_failed prp_id (error_message error)) ;;;
  throw error.

Definition sync_response (prpContent : PRPContent) (notionPageId : jsval)
  : M ToolResponse :=
  match notionPageId with
  | Some (JStr page) =>
      ret (createSuccessResponse
             ("Successfully synced PRP " ++ dq ++ prp_name prpContent ++ dq
              ++ " to Notion")
             [("notion_page_id", JStr page);
              ("notion_page_url", JStr ("https://notion.so/" ++ remove_dashes page));
              ("sync_status", JStr "synced")])
  | None | Some JNull => throw nullish_error
  | Some _ => throw (TypeError "notionPageId.replace is not a function")
  end.

Definition syncToNotion (login prp_id database_id : string) (update_existing : bool)
  : M ToolResponse :=
  try_catch
    (if negb (ALLOWED_USERNAMES_has login) then
       ret (insufficient_permissions "Insufficient permissions for Notion sync" login)
     else
       prp <- withDatabase (fetch_prp prp_id) ;;
       let prpContent := parsed_content prp in
       NotionClient.constructor ;;;
       let notionPageId := stored_page_id prp in
       existingPageId <-
         (if update_existing || negb (truthy notionPageId) then
            NotionClient.findPageByPRPId database_id prp_id
          else ret (Some JNull)) ;;
       step <- try_catch
                 (sync_try prp_id database_id update_existing notionPageId
                    existingPageId)
                 (sync_catch prp_id) ;;
       match step with
       | Returned response => ret response
       | Synced page => sync_response prpContent page
       end)
    (fun error =>
       console ("Error syncing to Notion: " ++ error_to_string error) ;;;
       env <- ask ;;
       ret (createErrorResponse "Failed to sync PRP to Notion"
              [("error", JStr (formatDatabaseError env error));
               ("prp_id", JStr prp_id);
               ("database_id", JStr database_id)])).

(** *** register-tools.ts: which tools a user gets

    [registerAllTools] registers the tools of the three files in turn;
    [updateTaskStatus] is registered only inside
    [if (ALLOWED_USERNAMES.has(props.login))]. *)
Inductive ToolName :=
| parseYoutubePRP_tool
| syncToNotion_tool
| checkNotionSyncStatus_tool
| listParsedPRPs_tool
| getPRPDetails_tool
| extractTasks_tool
| updateTaskStatus_tool.

Definition registerYouTubeTools (login : string) : list ToolName :=
  [parseYoutubePRP_tool].

Definition registerNotionTools (login : string) : list ToolName :=
  [syncToNotion_tool; checkNotionSyncStatus_tool].

Definition registerPRPTools (login : string) : list ToolName :=
  ([listParsedPRPs_tool; getPRPDetails_tool; extractTasks_tool]
   ++ (if ALLOWED_USERNAMES_has login then [updateTaskStatus_tool] else []))%list.

Definition registerAllTools (login : string) : list ToolName :=
  (registerYouTubeTools login ++ registerNotionTools login
   ++ registerPRPTools login)%list.

Definition ToolName_eqb (a b : ToolName) : bool :=
  match a, b with
  | parseYoutubePRP_tool, parseYoutubePRP_tool
  | syncToNotion_tool, syncToNotion_tool
  | checkNotionSyncStatus_tool, checkNotionSyncStatus_tool
  | listParsedPRPs_tool, listParsedPRPs_tool
  | getPRPDetails_tool, getPRPDetails_tool
  | extractTasks_tool, extractTasks_tool
  | updateTaskStatus_tool, updateTaskStatus_tool => true
  | _, _ => false
  end.

(** A call of one of the four tools that write, with arguments that passed
    the parameter schema. *)
Inductive ToolCall :=
| CallParseYoutubePRP (youtube_url : string) (notion_database_id : option string)
                      (auto_sync : bool)
| CallSyncToNotion (prp_id database_id : string) (update_existing : bool)
| CallExtractTasks (prp_id : string) (max_tasks : nat)
| CallUpdateTaskStatus (task_id : string) (status : TaskStatus).

Definition tool_of (call : ToolCall) : ToolName :=
  match call with
  | CallParseYoutubePRP _ _ _ => parseYoutubePRP_tool
  | CallSyncToNotion _ _ _ => syncToNotion_tool
  | CallExtractTasks _ _ => extractTasks_tool
  | CallUpdateTaskStatus _ _ => updateTaskStatus_tool
  end.

Definition handler (login : string) (call : ToolCall) : M ToolResponse :=
  match call with
  | CallParseYoutubePRP url database auto => parseYoutubePRP login url database auto
  | CallSyncToNotion prp database update => syncToNotion login prp database update
  | CallExtractTasks prp max_tasks => extractTasks login prp max_tasks
  | CallUpdateTaskStatus task status => updateTaskStatus login task status
  end.

(** A call from the user [login]: the handler runs when the tool was
    registered for that user; otherwise no code of this repository runs and
    the answer ([None] here) is the server library's. *)
Definition call_tool (login : string) (call : ToolCall) : M (option ToolResponse) :=
  if existsb (ToolName_eqb (tool_of call)) (registerAllTools login) then
    response <- handler login call ;;
    ret (Some response)
  else ret None.

(** The worlds a sequence of tool calls leads to. *)
Inductive reachable (env : Env) (start : World) : World -> Prop :=
| reachable_start : reachable env start start
| reachable_call : forall w login call,
    reachable env start w ->
    reachable env start (snd (call_tool login call env w)).

Definition fresh_world (d : Database) : World :=
  {| db := d; log := []; fetches := 0; units := 0 |}.

(** ** Vocabulary of the statements *)

(** Duration codes of the form [PT[nH][nM][nS]]: each component is absent or
    a non-empty string of digits whose value is a safe integer. *)
Definition all_chars (p : ascii -> bool) (s : string) : bool :=
  forallb p (list_ascii_of_string s).

Definition component_ok (c : option string) : bool :=
  match c with
  | Some ds => negb (String.eqb ds "") && all_chars is_digit ds
               && (parseInt ds <? 2 ^ 53)%N
  | None => true
  end.

Definition component (letter : string) (c : option string) : string :=
  match c with
  | Some ds => ds ++ letter
  | None => ""
  end.

Definition duration_code (h m s : option string) : string :=
  "PT" ++ component "H" h ++ component "M" m ++ component "S" s.

Definition not_P (c : ascii) : bool := negb (Ascii.eqb c "P").

(** Duration codes with a day part, [PnDT[nH][nM][nS]], as the video
    service sends them for videos of a day or more. *)
Definition day_code (d : string) (h m s : option string) : string :=
  "P" ++ d ++ "DT" ++ component "H" h ++ component "M" m ++ component "S" s.

(** What a component contributes to the rendering: nothing when it is absent
    or its value is 0. *)
Definition rendered (letter : string) (c : option string) : list string :=
  match c with
  | Some ds => if (0 <? parseInt ds)%N then [show_N (parseInt ds) ++ letter] else []
  | None => []
  end.

(** What happened between two worlds. *)
Definition events_since (before after : World) : list Event :=
  skipn (List.length (log before)) (log after).



(** The world after [events] of which [sent] are requests. *)
Definition after_events (w : World) (events : list Event) (sent : nat) : World :=
  {| db := db w; log := log w ++ events;
     fetches := sent + fetches w; units := units w |}.

(** The world after a unit of work that left the store as [d]. *)
Definition unit_done (w : World) (d : Database) : World :=
  {| db := d; log := log w ++ [EvDatabase (units w)];
     fetches := fetches w; units := S (units w) |}.

(** The world after a line on the console. *)
Definition said (w : World) (message : string) : World :=
  {| db := db w; log := log w ++ [EvConsole message];
     fetches := fetches w; units := units w |}.

(** The trace of a request that meets three rate-limit replies, [sent]
    requests having been sent before: three requests, and a pause after the
    first and after the second. *)
Definition first_pause (env : Env) (sent : nat) : Q :=
  pause 0 (Math_random env (1 + sent)).

Definition second_pause (env : Env) (sent : nat) : Q :=
  pause 1 (Math_random env (2 + sent)).

Definition three_attempts (env : Env) (sent : nat) (client : ClientName)
    (request : Request) : list Event :=
  [EvFetch request; EvDelay client 0 (first_pause env sent);
   EvFetch request; EvDelay client 1 (second_pause env sent);
   EvFetch request].







(** The smallest such reply. *)
Definition gemini_envelope (text : string) : json :=
  JObj [("candidates",
         JArr [JObj [("content",
                      JObj [("parts", JArr [JObj [("text", JStr text)]])])]])].


(** ** Concrete surroundings for the examples *)

(** The example store reads the timestamps the video service sends,
    [YYYY-MM-DDThh:mm:ssZ], and nothing else. *)
Fixpoint has_shape (shape text : string) : bool :=
  match shape, text with
  | EmptyString, EmptyString => true
  | String p shape', String c text' =>
      (if Ascii.eqb p "d" then is_digit c else Ascii.eqb p c)
      && has_shape shape' text'
  | _, _ => false
  end.

Definition is_timestamp (text : string) : bool :=
  has_shape "dddd-dd-ddTdd:dd:ddZ" text.

Definition table_parse (table : list (string * json)) (text : string) : Outcome json :=
  match assoc text table with
  | Some j => Ok j
  | None => Throw (SyntaxError "Unexpected token")
  end.

Definition example_env (replies : nat -> Request -> FetchResult)
    (table : list (string * json)) (reachable_units : nat -> bool) : Env :=
  {| fetch_reply := replies;
     db_reachable := reachable_units;
     NOW := fun n => 1000 + n;
     gen_random_uuid := fun n => "uuid-" ++ show_nat n;
     timestamptz_in := is_timestamp;
     Math_random := fun n => (1 # 2)%Q;
     JSON_parse := table_parse table;
     formatDatabaseError := error_message;
     YOUTUBE_API_KEY := "yt-key";
     GEMINI_API_KEY := "gm-key";
     GEMINI_MODEL := "";
     NOTION_TOKEN := "nt-token" |}.

Definition reply (code : Z) (text : string) : FetchResult :=
  Reply {| status := code; retry_after := None; body := text |}.




(** Every request is answered with a server error. *)
Definition always_500 : Env :=
  example_env (fun _ _ => reply 500 "backend error") [] (fun _ => true).

(** The coupling between a task's status and its completion columns that
    the code maintains: the two columns are both set or both [NULL], and
    they are set when the status is [completed]. *)
Definition completion_ok (t : DatabaseTaskRow) : bool :=
  match completed_at t, completed_by t with
  | Some _, Some _ => true
  | None, None => negb (TaskStatus_eqb (row_status t) completed)
  | _, _ => false
  end.

Definition tasks_consistent (d : Database) : Prop :=
  forallb completion_ok (tasks_table d) = true.

(** The coupling as the claim states it: completed if and only if both
    columns are set. *)
Definition completed_iff_recorded (t : DatabaseTaskRow) : Prop :=
  row_status t = completed <-> (completed_at t <> None /\ completed_by t <> None).

Definition completion_columns (t : DatabaseTaskRow)
  : string * option nat * option string :=
  (row_id t, completed_at t, completed_by t).

(** A computation keeps a property of the database. *)
Definition preserves (P : Database -> Prop) {A : Type} (m : M A) : Prop :=
  forall env w, P (db w) -> P (db (snd (m env w))).

Definition statement_preserves (P : Database -> Prop) {A : Type}
    (work : Statement A) : Prop :=
  forall uuid now d a d', P d -> work uuid now d = (Ok a, d') -> P d'.

Definition all_pending (values : list TaskValues) : bool :=
  forallb (fun v => TaskStatus_eqb (tv_status v) pending) values.

(** ** A complete run for the examples

    The video service knows the video and refuses to list captions; the
    extraction endpoint answers its first request (the fourth request of a
    parse) with a PRP that has two tasks and every later request with one
    additional task; the document store, when [notion_up], accepts the
    database and gives every created page a new id. *)

Definition video_reply : json :=
  JObj [("items",
         JArr [JObj [("id", JStr "dQw4w9WgXcQ");
                     ("snippet",
                      JObj [("title", JStr "Build a parser");
                            ("description", JStr "How to build a parser.");
                            ("channelTitle", JStr "Channel");
                            ("publishedAt", JStr "2024-01-01T00:00:00Z")]);
                     ("contentDetails", JObj [("duration", JStr "PT3M33S")])]])].

Definition task_json (title type : string) : json :=
  JObj [("title", JStr title); ("description", JStr "Do it.");
        ("type", JStr type); ("file_path", JNull); ("pseudocode", JNull)].

Definition prp_reply : json :=
  JObj [("name", JStr "Parser"); ("description", JStr "A parser.");
        ("goal", JStr "Parse."); ("why", JArr [JStr "Because."]);
        ("what", JStr "A parser."); ("success_criteria", JArr [JStr "It parses."]);
        ("context", JObj [("documentation", JArr []); ("gotchas", JArr [])]);
        ("tasks", JArr [task_json "Design the grammar" "design";
                        task_json "Write the parser" "create"])].

Definition more_tasks_reply : json :=
  JArr [task_json "Test the parser" "test"].

Definition example_parse (text : string) : Outcome json :=
  match strip_prefix "page:" text with
  | Some n => Ok (JObj [("id", JStr ("page-" ++ n))])
  | None =>
      table_parse [("VIDEO", video_reply);
                   ("PRP", gemini_envelope "```json PRP-TEXT ```");
                   ("PRP-TEXT", prp_reply);
                   ("MORE", gemini_envelope "MORE-TEXT");
                   ("MORE-TEXT", more_tasks_reply);
                   ("DATABASE", JObj [("object", JStr "database")]);
                   ("NOT-FOUND", JObj [("message", JStr "Could not find database")]);
                   ("NO-RESULTS", JObj [("results", JArr [])])] text
  end.

Definition example_replies (notion_up : bool) (n : nat) (request : Request)
  : FetchResult :=
  match req_client request with
  | YouTube =>
      if includes (req_url request) "/captions?" then reply 403 "Forbidden"
      else reply 200 "VIDEO"
  | Gemini => if (n <=? 3)%nat then reply 200 "PRP" else reply 200 "MORE"
  | Notion =>
      if negb notion_up then reply 404 "NOT-FOUND"
      else if includes (req_url request) "/query" then reply 200 "NO-RESULTS"
      else if String.eqb (req_method request) "GET" then reply 200 "DATABASE"
      else reply 200 ("page:" ++ show_nat n)
  end.

Definition pipeline_env (notion_up : bool) (reachable_units : nat -> bool) : Env :=
  {| fetch_reply := example_replies notion_up;
     db_reachable := reachable_units;
     NOW := fun n => 1000 + n;
     gen_random_uuid := fun n => "uuid-" ++ show_nat n;
     timestamptz_in := is_timestamp;
     Math_random := fun n => (1 # 2)%Q;
     JSON_parse := example_parse;
     formatDatabaseError := error_message;
     YOUTUBE_API_KEY := "yt-key";
     GEMINI_API_KEY := "gm-key";
     GEMINI_MODEL := "";
     NOTION_TOKEN := "nt-token" |}.




(** The store after both migrations, still empty. *)
Definition migrated : Database :=
  {| parsed_prps := []; tasks_table := [];
     type_check := migration_002_types; uuids_used := 0 |}.

Definition example_url : string := "https://www.youtube.com/watch?v=dQw4w9WgXcQ".

(** The world after a run of calls by one user. *)
Fixpoint run_calls (env : Env) (login : string) (calls : list ToolCall) (w : World)
  : World :=
  match calls with
  | [] => w
  | call :: rest => run_calls env login rest (snd (call_tool login call env w))
  end.

(** The answers to a run of calls. *)
Fixpoint answers (env : Env) (login : string) (calls : list ToolCall) (w : World)
  : list (Outcome (option ToolResponse)) :=
  match calls with
  | [] => []
  | call :: rest =>
      fst (call_tool login call env w)
      :: answers env login rest (snd (call_tool login call env w))
  end.

(** The [try] block of the inline sync of [parseYoutubePRP] as a whole. *)
Definition inline_sync (prp_id notion_database_id : string) : M jsval :=
  notionPageId <- inline_create notion_database_id ;;
  inline_mark_synced prp_id notionPageId ;;;
  ret notionPageId.

(** The store holds a PRP with this id. *)
Definition prp_stored (prp_id : string) (d : Database) : Prop :=
  existsb (has_id prp_id) (parsed_prps d) = true.





(** One task of each of the ten types. *)
Definition task_of_type (type : string) : PRPTask :=
  {| task_id := ""; task_prp_id := ""; task_order := 0;
     task_title := "A task"; task_description := "Do it.";
     task_type := type; task_file_path := None; task_pseudocode := None;
     task_status := pending |}.

Definition ten_tasks : list PRPTask := map task_of_type task_type_enum.

Definition ten_tasks_content : PRPContent :=
  {| prp_name := "Demo"; prp_description := ""; prp_goal := ""; prp_why := [];
     prp_what := ""; prp_success_criteria := [];
     prp_context := {| documentation := []; codebase_tree := None; gotchas := [] |};
     prp_tasks := ten_tasks |}.

Definition example_metadata : VideoMetadata :=
  {| md_id := "dQw4w9WgXcQ"; md_title := "Build a parser";
     md_description := "How to build a parser."; md_channelTitle := "Channel";
     md_publishedAt := "2024-01-01T00:00:00Z"; md_duration := "3m 33s" |}.

(** The world after the failure of the inline sync has been recorded,
    starting from the world [w] in which the [try] block failed. *)
Definition failure_recorded (env : Env) (prp_id : string) (error : JsError)
    (w : World) : World :=
  {| db := with_prps (db w)
             (map (set_failed prp_id (error_message error) (NOW env (units w)))
                  (parsed_prps (db w)));
     log := (log w ++ [EvConsole ("Failed to sync to Notion: "
                                  ++ error_to_string error)])
            ++ [EvDatabase (units w)];
     fetches := fetches w;
     units := S (units w) |}.

(** The world after the write of the failure record has itself failed, the
    store being out of reach, and the outer [catch] block has run. *)
Definition connection_error : JsError :=
  PlainError "Failed to connect to the database".

Definition failure_not_recorded (error : JsError) (w : World) : World :=
  said (unit_done (said w ("Failed to sync to Notion: " ++ error_to_string error))
          (db w))
    ("Error parsing YouTube PRP: " ++ error_to_string connection_error).

Definition response_data (r : ToolResponse) : list (string * json) :=
  match r with
  | SuccessResponse _ data => data
  | ErrorResponse _ details => details
  end.

Definition is_success (r : ToolResponse) : bool :=
  match r with
  | SuccessResponse _ _ => true
  | ErrorResponse _ _ => false
  end.

(** The request that creates a page. *)
Definition is_page_creation (ev : Event) : bool :=
  match ev with
  | EvFetch r =>
      String.eqb (req_method r) "POST"
      && String.eqb (req_url r) (NotionClient.baseUrl ++ "/pages")
  | _ => false
  end.

Definition stored_page (prp_id : string) (w : World) : option (option string) :=
  option_map notion_page_id (select_prp prp_id (db w)).

Definition stored_orders (prp_id : string) (w : World) : list nat :=
  map order_num
    (filter (fun t => String.eqb (row_prp_id t) prp_id) (tasks_table (db w))).


(** * Properties *)

(** ** Examples from the repository's tests (tests/unit/youtube-tools.test.ts) *)

Example extractVideoId_watch :
  extractVideoId "https://www.youtube.com/watch?v=dQw4w9WgXcQ" = Ok "dQw4w9WgXcQ".
Proof. reflexivity. Qed.

Example extractVideoId_short :
  extractVideoId "https://youtu.be/dQw4w9WgXcQ" = Ok "dQw4w9WgXcQ".
Proof. reflexivity. Qed.

Example extractVideoId_embed :
  extractVideoId "https://www.youtube.com/embed/dQw4w9WgXcQ" = Ok "dQw4w9WgXcQ".
Proof. reflexivity. Qed.

Example extractVideoId_other :
  extractVideoId "https://example.com/video"
  = Throw (PlainError "Invalid YouTube URL format").
Proof. reflexivity. Qed.

Example parseDuration_minutes_only : parseDuration "PT15M" = "15m".
Proof. reflexivity. Qed.

Example parseDuration_days : parseDuration "P1DT0H5M" = "P1DT0H5M".
Proof. reflexivity. Qed.

(** ** Strings *)

Lemma append_String_assoc (a b c : string) : (a ++ b) ++ c = a ++ (b ++ c).
Proof. induction a as [|x a IH]; simpl; [reflexivity | now rewrite IH]. Qed.

Lemma append_empty_r (a : string) : a ++ "" = a.
Proof. induction a as [|x a IH]; simpl; [reflexivity | now rewrite IH]. Qed.

Lemma take_class_app (p : ascii -> bool) (v r : string) :
  all_chars p v = true ->
  take_class p (String.length v) (v ++ r) = Some (v, r).
Proof.
  unfold all_chars. induction v as [|c v IH]; simpl; intros H.
  - reflexivity.
  - apply andb_prop in H as [Hc Hv]. rewrite Hc, (IH Hv). reflexivity.
Qed.

Lemma span_class_app (p : ascii -> bool) (v : string) (c : ascii) (r : string) :
  all_chars p v = true -> p c = false ->
  span_class p (v ++ String c r) = (v, String c r).
Proof.
  unfold all_chars. induction v as [|x v IH]; simpl; intros H Hc.
  - now rewrite Hc.
  - apply andb_prop in H as [Hx Hv]. now rewrite Hx, (IH Hv Hc).
Qed.

(** An optional group in front of a non-digit [c]: it matches when there are
    digits and [c] is its letter, and otherwise consumes nothing. *)
Lemma opt_group_app (letter : ascii) (ds : string) (c : ascii) (r : string) :
  all_chars is_digit ds = true -> is_digit c = false ->
  opt_group letter (ds ++ String c r)
  = if negb (String.eqb ds "") && Ascii.eqb c letter then (Some ds, r)
    else (None, ds ++ String c r).
Proof.
  intros Hds Hc. unfold opt_group. rewrite (span_class_app _ _ _ _ Hds Hc).
  destruct ds as [|d ds]; simpl.
  - reflexivity.
  - destruct (Ascii.eqb c letter); reflexivity.
Qed.

Lemma nonempty_match (x : string) (c : ascii) (r d : string) :
  match x ++ String c r with
  | EmptyString => d
  | joined => joined
  end = x ++ String c r.
Proof. destruct x; reflexivity. Qed.

Lemma component_ok_Some (ds : string) :
  component_ok (Some ds) = true ->
  negb (String.eqb ds "") = true /\ all_chars is_digit ds = true
  /\ safe_integer (parseInt ds).
Proof.
  unfold component_ok, safe_integer. intros H.
  apply andb_prop in H as [H Hs]. apply andb_prop in H as [Hn Hd].
  repeat split; try assumption. now apply N.ltb_lt.
Qed.

Ltac normalise_code :=
  repeat rewrite append_String_assoc; cbn [String.append].

Ltac step_group :=
  first
    [ rewrite opt_group_app by (assumption || reflexivity);
      repeat match goal with
             | H : negb (String.eqb ?d "") = true |- _ => rewrite H
             end;
      cbn [andb Ascii.eqb Bool.eqb]
    | change (opt_group ?l "") with (@pair (option string) string None "") ].

(** ** C9 *)

Lemma all_chars_app (p : ascii -> bool) (a b : string) :
  all_chars p (a ++ b) = all_chars p a && all_chars p b.
Proof.
  unfold all_chars. induction a as [|c a IH]; cbn; [reflexivity |].
  now rewrite IH, andb_assoc.
Qed.

Lemma find_PT_step (c : ascii) (s : string) :
  strip_prefix "PT" (String c s) = None -> find_PT (String c s) = find_PT s.
Proof. intros H. change (find_PT (String c s)) with
    (match strip_prefix "PT" (String c s) with
     | Some r => Some r
     | None => find_PT s
     end). now rewrite H.
Qed.

Lemma find_PT_no_P (s : string) : all_chars not_P s = true -> find_PT s = None.
Proof.
  unfold all_chars. induction s as [|c s IH]; cbn [list_ascii_of_string forallb].
  - reflexivity.
  - intros H. apply andb_prop in H as [Hc Hs].
    rewrite find_PT_step; [now apply IH |].
    unfold not_P in Hc. apply negb_true_iff in Hc.
    cbn [strip_prefix]. rewrite Ascii.eqb_sym in Hc. now rewrite Hc.
Qed.

Lemma digits_not_P (ds : string) :
  all_chars is_digit ds = true -> all_chars not_P ds = true.
Proof.
  unfold all_chars. induction ds as [|c ds IH]; cbn; [reflexivity |].
  intros H. apply andb_prop in H as [Hc Hs]. rewrite (IH Hs), andb_true_r.
  unfold not_P. destruct (Ascii.eqb c "P") eqn:E; [|reflexivity].
  apply Ascii.eqb_eq in E. subst c. discriminate Hc.
Qed.

Lemma component_not_P (letter : string) (c : option string) :
  component_ok c = true -> all_chars not_P letter = true ->
  all_chars not_P (component letter c) = true.
Proof.
  intros Hc Hl. destruct c as [ds|]; [|reflexivity].
  apply component_ok_Some in Hc as (_ & Hd & _).
  cbn [component]. now rewrite all_chars_app, (digits_not_P _ Hd), Hl.
Qed.

(** A code with a day part holds no ["PT"]: the pattern finds nothing. *)
Lemma find_PT_day_code (d : string) (h m s : option string) :
  component_ok (Some d) = true -> component_ok h = true ->
  component_ok m = true -> component_ok s = true ->
  find_PT (day_code d h m s) = None.
Proof.
  intros Hd Hh Hm Hs.
  apply component_ok_Some in Hd as (Hne & Hd & _).
  unfold day_code. destruct d as [|c d]; [discriminate Hne |].
  cbn [String.append].
  assert (Hc : Ascii.eqb "T" c = false).
  { destruct (Ascii.eqb "T" c) eqn:E; [|reflexivity].
    apply Ascii.eqb_eq in E. subst c. discriminate Hd. }
  rewrite find_PT_step
    by (cbn [strip_prefix]; now rewrite (Ascii.eqb_refl "P"), Hc).
  apply find_PT_no_P.
  assert (Hall : all_chars not_P
                   (String c d ++ "DT" ++ component "H" h ++ component "M" m
                    ++ component "S" s) = true).
  { rewrite !all_chars_app, (digits_not_P _ Hd).
    rewrite (component_not_P "H" h Hh eq_refl), (component_not_P "M" m Hm eq_refl),
      (component_not_P "S" s Hs eq_refl).
    reflexivity. }
  exact Hall.
Qed.

(** Counterexample to C9 as stated.  The code of a video of one day and five
    minutes is an ISO 8601 duration; it is returned as it is, with its two
    zero components. *)
Lemma parseDuration_keeps_zero_components_of_day_codes :
  day_code "1" (Some "0") (Some "5") (Some "0") = "P1DT0H5M0S"
  /\ parseDuration "P1DT0H5M0S" = "P1DT0H5M0S"
  /\ parseDuration "P1DT0H5M0S" <> "1d 5m"
  /\ parseDuration "P1DT0H5M0S" <> "5m".
Proof. repeat split; discriminate. Qed.

(** C9, amended. Duration rendering: ["PT0S"] gives ["0s"], ["PT1H2M3S"]
    gives ["1h 2m 3s"], and for every duration code [PT[nH][nM][nS]] the
    rendered string consists of the components whose value is not 0, in
    order and separated by spaces; a component whose value is 0 contributes
    nothing, and ["0s"] is the rendering when nothing is left.  A code with
    a day part, [PnDT[nH][nM][nS]], is not rendered: it is returned as it
    is, zero components included. *)
Theorem parseDuration_omits_zero_components_of_time_codes
    (d : string) (h m s : option string) :
  component_ok (Some d) = true ->
  component_ok h = true -> component_ok m = true -> component_ok s = true ->
  parseDuration (duration_code h m s)
  = match (rendered "h" h ++ rendered "m" m ++ rendered "s" s)%list with
    | [] => "0s"
    | parts => join " " parts
    end
  /\ parseDuration (day_code d h m s) = day_code d h m s.
Proof.
  intros Hd Hh Hm Hs. split.
  - clear Hd d. unfold parseDuration, duration_code, component, rendered.
    destruct h as [dh|], m as [dm|], s as [ds|];
      repeat match goal with
             | H : component_ok (Some _) = true |- _ =>
                 apply component_ok_Some in H as (? & ? & _)
             end;
      normalise_code;
      cbn [find_PT strip_prefix Ascii.eqb Bool.eqb];
      repeat step_group;
      cbn [group_value];
      change (0 <? 0)%N with false;
      repeat match goal with
             | |- context [(0 <? parseInt ?d)%N] => destruct (0 <? parseInt d)%N
             end;
      cbn [push_if List.app join];
      normalise_code;
      try reflexivity;
      try apply nonempty_match.
  - unfold parseDuration. now rewrite find_PT_day_code.
Qed.

Lemma parseDuration_omits_zero_components_of_time_codes_witness :
  (component_ok (Some "1") = true /\ component_ok (Some "2") = true
   /\ component_ok (Some "3") = true /\ parseDuration "PT1H2M3S" = "1h 2m 3s")
  /\ (component_ok None = true /\ component_ok (Some "0") = true
      /\ parseDuration "PT0S" = "0s")
  /\ parseDuration "PT0H7M0S" = "7m"
  /\ parseDuration "P2DT0H7M0S" = "P2DT0H7M0S".
Proof.
  split; [|split; [|split]].
  - split; [reflexivity | split; [reflexivity | split; [reflexivity |]]].
    exact (proj1 (parseDuration_omits_zero_components_of_time_codes
                    "1" (Some "1") (Some "2") (Some "3")
                    eq_refl eq_refl eq_refl eq_refl)).
  - split; [reflexivity | split; [reflexivity |]].
    exact (proj1 (parseDuration_omits_zero_components_of_time_codes
                    "1" None None (Some "0") eq_refl eq_refl eq_refl eq_refl)).
  - exact (proj1 (parseDuration_omits_zero_components_of_time_codes
                    "1" (Some "0") (Some "7") (Some "0")
                    eq_refl eq_refl eq_refl eq_refl)).
  - exact (proj2 (parseDuration_omits_zero_components_of_time_codes
                    "2" (Some "0") (Some "7") (Some "0")
                    eq_refl eq_refl eq_refl eq_refl)).
Defined.
(** ** C10 *)

(** C10. Video-id extraction matches its patterns anywhere inside the input:
    for an input whose host is not a video host but which contains
    ["youtube.com/watch?v="] followed by 11 id characters,
    [extractVideoId] returns these 11 characters instead of failing, and
    whatever follows them is ignored. *)
Theorem extractVideoId_matches_inside_any_url (vid rest : string) :
  String.length vid = 11 ->
  all_chars is_id_char vid = true ->
  extractVideoId ("https://evil.example/youtube.com/watch?v=" ++ vid ++ rest)
  = Ok vid.
Proof.
  intros Hlen Hid.
  pose proof (take_class_app is_id_char vid rest Hid) as Htake.
  rewrite Hlen in Htake.
  unfold extractVideoId, patterns.
  cbn [String.append].
  cbn [regex_search match_here strip_prefix Ascii.eqb Bool.eqb].
  rewrite Htake. reflexivity.
Qed.

Lemma extractVideoId_matches_inside_any_url_witness :
  (String.length "abcdefghijk" = 11
   /\ all_chars is_id_char "abcdefghijk" = true
   /\ youtube_url_refine "https://evil.example/youtube.com/watch?v=abcdefghijk" = true
   /\ extractVideoId "https://evil.example/youtube.com/watch?v=abcdefghijk"
      = Ok "abcdefghijk")
  /\ extractVideoId "https://evil.example/youtube.com/watch?v=abcdefghijkLMNOP&t=1"
     = Ok "abcdefghijk".
Proof.
  split.
  - split; [reflexivity | split; [reflexivity | split; [reflexivity |]]].
    exact (extractVideoId_matches_inside_any_url "abcdefghijk" "" eq_refl eq_refl).
  - exact (extractVideoId_matches_inside_any_url "abcdefghijk" "LMNOP&t=1"
             eq_refl eq_refl).
Defined.
(** ** The retry loop *)

Lemma events_since_after (w : World) (events : list Event) (sent : nat) :
  events_since w (after_events w events sent) = events.
Proof.
  unfold events_since, after_events; simpl.
  induction (log w); simpl; [reflexivity | assumption].
Qed.






(** The clean-up removes the white space of Unicode, such as the no-break
    spaces around this answer, and the code fence. *)
Example clean_text_no_break_space :
  let nbsp := String (ascii_of_N 194) (String (ascii_of_N 160) "") in
  clean_text (nbsp ++ "```json" ++ nl ++ "[]" ++ nl ++ "```" ++ nbsp) = "[]".
Proof. reflexivity. Qed.


(** A body of the extraction endpoint that is not JSON at all is treated
    like a failure of the transport: [response.json()] rejects inside the
    [try] block of [makeRequest], so the request is sent three times. *)
Lemma malformed_body_is_retried (model : string) (env : Env) (w : World)
    (r : Response) (m : string) :
  (forall n, fetch_reply env n (GeminiClient.request model env) = Reply r) ->
  response_ok r = true ->
  JSON_parse env (body r) = Throw (SyntaxError m) ->
  GeminiClient.makeRequest model env w
  = (Throw (PlainError ("Gemini API request failed after 3 attempts: SyntaxError: "
                        ++ m)),
     after_events w
       (three_attempts env (fetches w) Gemini (GeminiClient.request model env)) 3).
Proof.
  intros Hreply Hok Hjson.
  assert (H429 : (status r =? 429)%Z = false).
  { unfold response_ok in Hok. apply andb_prop in Hok as [_ Hhi].
    apply Z.leb_le in Hhi. apply Z.eqb_neq. lia. }
  assert (Hstep : forall w1,
             GeminiClient.on_reply r env w1 = (Throw (SyntaxError m), w1)).
  { intros w1. unfold GeminiClient.on_reply. rewrite Hok. cbn [negb].
    unfold bind, response_json. now rewrite Hjson. }
  unfold GeminiClient.makeRequest, makeRequest_loop, maxRetries, attempts,
    iteration, try_catch, bind, ask, fetch, on_caught, delay, emit, ret, throw.
  cbn [fetches db log units fst snd].
  do 3 (rewrite Hreply, H429, Hstep;
        cbn -[GeminiClient.on_reply GeminiClient.request pause String.append]).
  unfold after_events, three_attempts, first_pause, second_pause.
  cbn -[GeminiClient.request pause]. repeat rewrite <- app_assoc. reflexivity.
Qed.

(** ** C3 *)






(** ** C8 *)

Lemma bind_Ok {A B : Type} (m : M A) (f : A -> M B) (env : Env) (w w' : World) (b : B) :
  bind m f env w = (Ok b, w') ->
  exists a w1, m env w = (Ok a, w1) /\ f a env w1 = (Ok b, w').
Proof.
  unfold bind. destruct (m env w) as [[a|e] w1]; intros H.
  - now exists a, w1.
  - discriminate.
Qed.

(** When the [try] block of [getVideoTranscript] returns, it returns the
    description fetched by its call of [getVideoMetadata]. *)
Lemma transcript_from_captions_Ok (videoId : string) (env : Env) (w w' : World)
    (t : string) :
  YouTubeClient.transcript_from_captions videoId env w = (Ok t, w') ->
  exists w1 metadata,
    YouTubeClient.getVideoMetadata videoId env w1 = (Ok metadata, w')
    /\ t = YouTubeClient.no_transcript_label ++ nl ++ nl ++ md_description metadata.
Proof.
  unfold YouTubeClient.transcript_from_captions. intros H.
  apply bind_Ok in H as (captions & w1 & _ & H).
  apply bind_Ok in H as (items & w2 & _ & H).
  apply bind_Ok in H as (len & w3 & _ & H).
  destruct (negb (truthy items) || is_zero_length len); [discriminate |].
  apply bind_Ok in H as (caption & w4 & _ & H).
  apply bind_Ok in H as (u & w5 & _ & H).
  apply bind_Ok in H as (metadata & w6 & Hmd & H).
  unfold ret in H. injection H as Ht Hw. subst.
  now exists w5, metadata.
Qed.

(** Counterexample to C8 as stated.  When the upstream answers every request
    with a server error, the caption listing fails, the fallback asks for the
    metadata, that request fails too, and [getVideoTranscript] throws. *)
Lemma getVideoTranscript_can_throw :
  fst (YouTubeClient.getVideoTranscript "dQw4w9WgXcQ" always_500
         (fresh_world migration_001))
  = Throw (APIError YouTube "YouTube API error: 500 - backend error"
             (Some 500%Z) None).
Proof. vm_compute. reflexivity. Qed.

(** C8, amended.  For every video id, the outcome of transcript retrieval is
    the outcome of a metadata fetch it makes: when that fetch succeeds, the
    result is the video's description behind one of the two labels saying
    that no transcript is available, whatever the caption listing did; it
    throws only when that metadata fetch throws, and then with its error. *)
Theorem getVideoTranscript_falls_back_to_description
    (videoId : string) (env : Env) (w : World) :
  exists w1,
    match YouTubeClient.getVideoMetadata videoId env w1 with
    | (Ok metadata, w2) =>
        exists label,
          (label = YouTubeClient.no_transcript_label
           \/ label = YouTubeClient.failed_transcript_label)
          /\ YouTubeClient.getVideoTranscript videoId env w
             = (Ok (label ++ nl ++ nl ++ md_description metadata), w2)
    | (Throw error, w2) =>
        YouTubeClient.getVideoTranscript videoId env w = (Throw error, w2)
    end.
Proof.
  unfold YouTubeClient.getVideoTranscript, try_catch.
  destruct (YouTubeClient.transcript_from_captions videoId env w)
    as [[t|e] w'] eqn:Htry.
  - apply transcript_from_captions_Ok in Htry as (w1 & metadata & Hmd & Ht).
    exists w1. rewrite Hmd. exists YouTubeClient.no_transcript_label.
    split; [now left | now rewrite Ht].
  - unfold YouTubeClient.transcript_fallback, bind, console, emit, ret.
    match goal with
    | |- context [YouTubeClient.getVideoMetadata videoId env ?x] =>
        match x with {| db := _ |} => exists x end
    end.
    destruct (YouTubeClient.getVideoMetadata videoId env _) as [[metadata|e'] w2].
    + exists YouTubeClient.failed_transcript_label. split; [now right | reflexivity].
    + reflexivity.
Qed.

(** ** C4 *)

(** Counterexample to C4 as stated.  For a user outside the allow-list the
    tool [updateTaskStatus] is not registered, so a call of it reaches no
    handler of this repository: nothing is written and nothing is called,
    but no error envelope is produced either. *)
Lemma updateTaskStatus_unregistered_gives_no_envelope :
  ALLOWED_USERNAMES_has "mallory" = false
  /\ call_tool "mallory" (CallUpdateTaskStatus "task-1" completed) always_500
       (fresh_world migration_001)
     = (Ok None, fresh_world migration_001)
  /\ ~ exists error details,
        fst (call_tool "mallory" (CallUpdateTaskStatus "task-1" completed)
               always_500 (fresh_world migration_001))
        = Ok (Some (ErrorResponse error details)).
Proof.
  split; [reflexivity |]. split; [reflexivity |].
  intros (error & details & H). vm_compute in H. discriminate.
Qed.

(** C4, amended.  For every username outside the allow-list, [extractTasks]
    and [syncToNotion] answer with the insufficient-permissions error
    envelope (required role, user role and user name in the details) and
    leave the world as it was: no database unit, no request, no log entry;
    [updateTaskStatus] is not among the tools registered for that user, and
    a call of it runs no handler and leaves the world as it was. *)
Theorem unprivileged_calls_have_no_effect (login : string) (env : Env) (w : World)
    (prp_id database_id task_id : string) (max_tasks : nat)
    (update_existing : bool) (status : TaskStatus) :
  ALLOWED_USERNAMES_has login = false ->
  call_tool login (CallExtractTasks prp_id max_tasks) env w
  = (Ok (Some (ErrorResponse "Insufficient permissions to extract tasks"
                 [("requiredRole", JStr "privileged");
                  ("userRole", JStr "standard"); ("user", JStr login)])), w)
  /\ call_tool login (CallSyncToNotion prp_id database_id update_existing) env w
     = (Ok (Some (ErrorResponse "Insufficient permissions for Notion sync"
                    [("requiredRole", JStr "privileged");
                     ("userRole", JStr "standard"); ("user", JStr login)])), w)
  /\ ~ In updateTaskStatus_tool (registerAllTools login)
  /\ call_tool login (CallUpdateTaskStatus task_id status) env w = (Ok None, w).
Proof.
  intros H.
  unfold call_tool, registerAllTools, registerYouTubeTools, registerNotionTools,
    registerPRPTools, handler, extractTasks, syncToNotion.
  rewrite H. cbn. repeat split.
  intros [F|[F|[F|[F|[F|[F|[]]]]]]]; discriminate.
Qed.

Lemma unprivileged_calls_have_no_effect_witness :
  ALLOWED_USERNAMES_has "mallory" = false
  /\ call_tool "mallory" (CallSyncToNotion "prp-1" "db-1" false) always_500
       (fresh_world migration_001)
     = (Ok (Some (ErrorResponse "Insufficient permissions for Notion sync"
                    [("requiredRole", JStr "privileged");
                     ("userRole", JStr "standard"); ("user", JStr "mallory")])),
        fresh_world migration_001).
Proof.
  split; [reflexivity |].
  exact (proj1 (proj2 (unprivileged_calls_have_no_effect "mallory" always_500
                         (fresh_world migration_001) "prp-1" "db-1" "task-1" 20
                         false completed eq_refl))).
Defined.

(** ** What the computations keep of the database *)

Lemma preserves_ret (P : Database -> Prop) {A : Type} (a : A) : preserves P (ret a).
Proof. intros env w H; exact H. Qed.

Lemma preserves_throw (P : Database -> Prop) {A : Type} (e : JsError) : preserves P (@throw A e).
Proof. intros env w H; exact H. Qed.

Lemma preserves_lift (P : Database -> Prop) {A : Type} (o : Outcome A) : preserves P (lift o).
Proof. intros env w H; exact H. Qed.

Lemma preserves_ask (P : Database -> Prop) : preserves P ask.
Proof. intros env w H; exact H. Qed.

Lemma preserves_emit (P : Database -> Prop) (ev : Event) : preserves P (emit ev).
Proof. intros env w H; exact H. Qed.

Lemma preserves_console (P : Database -> Prop) (message : string) : preserves P (console message).
Proof. apply preserves_emit. Qed.

Lemma preserves_delay (P : Database -> Prop) (client : ClientName) (n : nat) : preserves P (delay client n).
Proof. intros env w H; exact H. Qed.

Lemma preserves_fetch (P : Database -> Prop) (r : Request) : preserves P (fetch r).
Proof. intros env w H; exact H. Qed.

Lemma preserves_response_json (P : Database -> Prop) (r : Response) : preserves P (response_json r).
Proof. intros env w H; exact H. Qed.

Lemma preserves_JSON_parse (P : Database -> Prop) (text : string) :
  preserves P (GeminiClient.JSON_parse_M text).
Proof. intros env w H; exact H. Qed.

Lemma preserves_bind (P : Database -> Prop) {A B : Type} (m : M A) (f : A -> M B) :
  preserves P m -> (forall a, preserves P (f a)) -> preserves P (bind m f).
Proof.
  intros Hm Hf env w H. unfold bind.
  specialize (Hm env w H). destruct (m env w) as [[a|e] w1]; simpl in Hm.
  - now apply Hf.
  - exact Hm.
Qed.

Lemma preserves_try_catch (P : Database -> Prop) {A : Type} (m : M A) (h : JsError -> M A) :
  preserves P m -> (forall e, preserves P (h e)) -> preserves P (try_catch m h).
Proof.
  intros Hm Hh env w H. unfold try_catch.
  specialize (Hm env w H). destruct (m env w) as [[a|e] w1]; simpl in Hm.
  - exact Hm.
  - now apply Hh.
Qed.

Lemma preserves_attempt (P : Database -> Prop) {A : Type} (m : M A) :
  preserves P m -> preserves P (attempt m).
Proof.
  intros Hm env w H. unfold attempt.
  specialize (Hm env w H). now destruct (m env w).
Qed.

Lemma preserves_withDatabase (P : Database -> Prop) {A : Type} (work : Statement A) :
  statement_preserves P work -> preserves P (withDatabase work).
Proof.
  intros Hwork env w H. unfold withDatabase.
  destruct (db_reachable env (units w)); [|exact H].
  destruct (work (gen_random_uuid env) (NOW env (units w)) (db w))
    as [[a|e] d'] eqn:E; simpl.
  - exact (Hwork _ _ _ _ _ H E).
  - exact H.
Qed.

Ltac keep_with known :=
  repeat (first
            [ known
            | apply preserves_ret | apply preserves_throw | apply preserves_lift
            | apply preserves_ask | apply preserves_console | apply preserves_delay
            | apply preserves_emit | apply preserves_fetch
            | apply preserves_response_json | apply preserves_JSON_parse
            | apply preserves_bind; [| intro]
            | apply preserves_try_catch; [| intro]
            | apply preserves_attempt
            | match goal with
              | |- preserves _ (match ?x with _ => _ end) => destruct x
              end
            | assumption
            | match goal with
              | H : forall r, preserves _ _ |- _ => apply H
              end ]).

Ltac keep := keep_with fail.

Lemma preserves_makeRequest_loop (P : Database -> Prop) {T : Type} (client : ClientName)
    (on_reply : Response -> M T) (request : Request) :
  (forall r, preserves P (on_reply r)) ->
  preserves P (makeRequest_loop client on_reply request).
Proof.
  intros Hreply. unfold makeRequest_loop.
  generalize 0 as attempt. induction maxRetries as [|remaining IH]; intros attempt.
  - apply preserves_throw.
  - cbn [attempts]. apply preserves_bind.
    + unfold iteration, on_caught. keep.
    + intros [v|]; [apply preserves_ret | apply IH].
Qed.

Ltac requests := keep_with ltac:(apply preserves_makeRequest_loop; intro).

Lemma preserves_youtube_makeRequest (P : Database -> Prop) (endpoint : string)
    (params : list (string * string)) :
  preserves P (YouTubeClient.makeRequest endpoint params).
Proof. unfold YouTubeClient.makeRequest, YouTubeClient.on_reply. requests. Qed.

Lemma preserves_gemini_makeRequest (P : Database -> Prop) (model : string) :
  preserves P (GeminiClient.makeRequest model).
Proof. unfold GeminiClient.makeRequest, GeminiClient.on_reply. requests. Qed.

Lemma preserves_notion_makeRequest (P : Database -> Prop) (method endpoint : string) :
  preserves P (NotionClient.makeRequest method endpoint).
Proof. unfold NotionClient.makeRequest, NotionClient.on_reply. requests. Qed.

Ltac clients :=
  keep_with ltac:(first [ apply preserves_youtube_makeRequest
                        | apply preserves_gemini_makeRequest
                        | apply preserves_notion_makeRequest ]).

Lemma preserves_getVideoMetadata (P : Database -> Prop) (videoId : string) :
  preserves P (YouTubeClient.getVideoMetadata videoId).
Proof. unfold YouTubeClient.getVideoMetadata. clients. Qed.

Lemma preserves_getVideoTranscript (P : Database -> Prop) (videoId : string) :
  preserves P (YouTubeClient.getVideoTranscript videoId).
Proof.
  unfold YouTubeClient.getVideoTranscript, YouTubeClient.transcript_from_captions,
    YouTubeClient.transcript_fallback.
  keep_with ltac:(first [ apply preserves_youtube_makeRequest
                        | apply preserves_getVideoMetadata ]).
Qed.

Lemma preserves_parsePRPContent (P : Database -> Prop) (model : string) :
  preserves P (GeminiClient.parsePRPContent model).
Proof. unfold GeminiClient.parsePRPContent. clients. Qed.

Lemma preserves_gemini_extractTasks (P : Database -> Prop) (model : string) (content : PRPContent)
    (n : nat) :
  preserves P (GeminiClient.extractTasks model content n).
Proof. unfold GeminiClient.extractTasks. clients. Qed.

Lemma preserves_createDatabasePage (P : Database -> Prop) (databaseId : string) :
  preserves P (NotionClient.createDatabasePage databaseId).
Proof.
  unfold NotionClient.createDatabasePage, NotionClient.validateDatabase. clients.
Qed.

Lemma preserves_updateDatabasePage (P : Database -> Prop) (pageId : string) :
  preserves P (NotionClient.updateDatabasePage pageId).
Proof. unfold NotionClient.updateDatabasePage. clients. Qed.

Lemma preserves_findPageByPRPId (P : Database -> Prop) (databaseId prpId : string) :
  preserves P (NotionClient.findPageByPRPId databaseId prpId).
Proof. unfold NotionClient.findPageByPRPId. clients. Qed.

Lemma preserves_constructors (P : Database -> Prop) :
  preserves P YouTubeClient.constructor /\ preserves P GeminiClient.constructor
  /\ preserves P NotionClient.constructor.
Proof.
  unfold YouTubeClient.constructor, GeminiClient.constructor,
    NotionClient.constructor.
  repeat split; keep.
Qed.

(** ** The status and the completion columns of tasks *)

Lemma completion_ok_set_status (task_id : string) (status : TaskStatus)
    (login : string) (now : nat) (r : DatabaseTaskRow) :
  completion_ok r = true ->
  completion_ok (set_status task_id status login now r) = true.
Proof.
  unfold set_status, completion_ok. intros H.
  destruct (String.eqb (row_id r) task_id); [|exact H].
  destruct status; cbn; try reflexivity;
    destruct (completed_at r), (completed_by r); cbn in *;
    try reflexivity; try discriminate.
Qed.

Lemma completion_ok_new_rows (uuid : nat -> string) (now first : nat)
    (values : list TaskValues) (start : nat) :
  all_pending values = true ->
  forallb completion_ok (mapi_from start (task_row uuid now first) values) = true.
Proof.
  unfold all_pending. revert start.
  induction values as [|v values IH]; intros start H; cbn in *.
  - reflexivity.
  - apply andb_prop in H as [Hv Hrest]. rewrite (IH _ Hrest).
    unfold completion_ok; cbn. destruct (tv_status v); try discriminate. reflexivity.
Qed.

Lemma all_pending_mapi (f : PRPTask -> nat -> TaskValues) (tasks : list PRPTask)
    (start : nat) :
  (forall t i, tv_status (f t i) = pending) ->
  all_pending (mapi_from start f tasks) = true.
Proof.
  intros Hf. unfold all_pending. revert start.
  induction tasks as [|t tasks IH]; intros start; cbn.
  - reflexivity.
  - now rewrite Hf, IH.
Qed.

(** What the statements do when they succeed. *)
Lemma insert_tasks_Ok (values : list TaskValues) (uuid : nat -> string) (now : nat)
    (d d' : Database) (rows : list DatabaseTaskRow) :
  insert_tasks values uuid now d = (Ok rows, d') ->
  values <> []
  /\ forallb (type_check_ok d) values = true
  /\ forallb (foreign_key_ok d) values = true
  /\ rows = mapi (task_row uuid now (uuids_used d)) values
  /\ d' = {| parsed_prps := parsed_prps d; tasks_table := tasks_table d ++ rows;
             type_check := type_check d;
             uuids_used := uuids_used d + List.length values |}.
Proof.
  unfold insert_tasks. destruct values as [|v values]; [discriminate |].
  destruct (forallb (type_check_ok d) (v :: values)); [|discriminate].
  destruct (forallb (foreign_key_ok d) (v :: values)); [|discriminate].
  cbn [negb]. intros E. inversion E; subst; clear E.
  repeat split. discriminate.
Qed.

Lemma insert_prp_Ok (accepts : string -> bool) (youtube_url videoId : string)
    (metadata : VideoMetadata) (transcript : string) (prpContent : PRPContent)
    (login : string) (uuid : nat -> string) (now : nat) (d d' : Database)
    (row : DatabasePRPRow) :
  insert_prp accepts youtube_url videoId metadata transcript prpContent login
    uuid now d = (Ok row, d') ->
  accepts (md_publishedAt metadata) = true
  /\ d' = {| parsed_prps := parsed_prps d ++ [row]; tasks_table := tasks_table d;
             type_check := type_check d; uuids_used := S (uuids_used d) |}
  /\ id row = uuid (uuids_used d)
  /\ (notion_sync_status row = not_synced /\ notion_page_id row = None
      /\ notion_sync_error row = None /\ notion_synced_at row = None)
  /\ (created_by row = login /\ video_id row = videoId
      /\ parsed_content row = prpContent).
Proof.
  unfold insert_prp. destruct (accepts (md_publishedAt metadata)); [|discriminate].
  intros E. inversion E; subst; clear E. repeat split.
Qed.

Lemma store_prp_Ok (accepts : string -> bool) (youtube_url videoId : string)
    (metadata : VideoMetadata) (transcript : string) (prpContent : PRPContent)
    (login : string) (uuid : nat -> string) (now : nat) (d d' : Database)
    (row : DatabasePRPRow) :
  store_prp accepts youtube_url videoId metadata transcript prpContent login
    uuid now d = (Ok row, d') ->
  exists d1,
    insert_prp accepts youtube_url videoId metadata transcript prpContent login
      uuid now d = (Ok row, d1)
    /\ ((prp_tasks prpContent = [] /\ d' = d1)
        \/ (prp_tasks prpContent <> []
            /\ exists rows,
                 insert_tasks (mapi (initial_task_values (id row))
                                 (prp_tasks prpContent)) uuid now d1
                 = (Ok rows, d'))).
Proof.
  unfold store_prp.
  destruct (insert_prp accepts youtube_url videoId metadata transcript prpContent
              login uuid now d) as [[r|e] d1]; [|discriminate].
  destruct (prp_tasks prpContent) as [|t tasks] eqn:Et.
  - intros E. inversion E; subst; clear E. exists d'. split; [reflexivity |].
    left. now split.
  - destruct (insert_tasks (mapi (initial_task_values (id r)) (t :: tasks))
                uuid now d1) as [[rows|e] d2] eqn:Ei; [|discriminate].
    intros E. inversion E; subst; clear E. exists d1. split; [reflexivity |].
    right. split; [discriminate |]. now exists rows.
Qed.

Lemma consistent_insert_tasks (values : list TaskValues) :
  all_pending values = true ->
  statement_preserves tasks_consistent (insert_tasks values).
Proof.
  intros Hp uuid now d rows d' H E.
  apply insert_tasks_Ok in E as (_ & _ & _ & -> & ->).
  unfold tasks_consistent in *; cbn. rewrite forallb_app, H. cbn.
  now apply completion_ok_new_rows.
Qed.

Lemma consistent_store_prp (accepts : string -> bool) (youtube_url videoId : string)
    (metadata : VideoMetadata) (transcript : string) (prpContent : PRPContent)
    (login : string) :
  statement_preserves tasks_consistent
    (store_prp accepts youtube_url videoId metadata transcript prpContent login).
Proof.
  intros uuid now d row d' H E.
  apply store_prp_Ok in E as (d1 & E1 & E2).
  apply insert_prp_Ok in E1 as (_ & -> & _).
  destruct E2 as [[_ ->]|(_ & rows & Ei)]; [exact H |].
  refine (consistent_insert_tasks _ _ uuid now _ rows d' _ Ei).
  - now apply all_pending_mapi.
  - exact H.
Qed.

Lemma consistent_update_and_lookup (task_id : string) (status : TaskStatus)
    (login : string) :
  statement_preserves tasks_consistent (update_and_lookup task_id status login).
Proof.
  intros uuid now d a d' H. unfold update_and_lookup, update_task_status.
  match goal with |- context [List.find ?f ?l] => destruct (List.find f l) end;
    [|discriminate].
  intros E. injection E as _ Ed. subst d'.
  unfold tasks_consistent in *; cbn.
  rewrite forallb_forall in *. intros r Hr.
  apply in_map_iff in Hr as (r0 & <- & Hr0).
  apply completion_ok_set_status. now apply H.
Qed.

Lemma consistent_fetch_prp (prp_id : string) :
  statement_preserves tasks_consistent (fetch_prp prp_id).
Proof.
  intros uuid now d a d' H. unfold fetch_prp.
  destruct (select_prp prp_id d); [|discriminate].
  intros E. injection E as _ Ed. now subst d'.
Qed.

Lemma consistent_mark_synced (prp_id : string) (page : jsval) (clear : bool) :
  statement_preserves tasks_consistent (mark_synced prp_id page clear).
Proof.
  intros uuid now d a d' H. unfold mark_synced.
  destruct page; [|discriminate].
  intros E. injection E as _ Ed. now subst d'.
Qed.

Lemma consistent_mark_failed (prp_id message : string) :
  statement_preserves tasks_consistent (mark_failed prp_id message).
Proof.
  intros uuid now d a d' H. unfold mark_failed.
  intros E. injection E as _ Ed. now subst d'.
Qed.

Ltac consistent_units :=
  apply preserves_withDatabase;
  first [ apply consistent_fetch_prp | apply consistent_store_prp
        | apply consistent_update_and_lookup | apply consistent_mark_synced
        | apply consistent_mark_failed
        | apply consistent_insert_tasks; apply all_pending_mapi; reflexivity ].

Ltac tools :=
  keep_with ltac:(first [ consistent_units
                        | apply preserves_getVideoMetadata
                        | apply preserves_getVideoTranscript
                        | apply preserves_parsePRPContent
                        | apply preserves_gemini_extractTasks
                        | apply preserves_createDatabasePage
                        | apply preserves_updateDatabasePage
                        | apply preserves_findPageByPRPId
                        | apply preserves_constructors ]).

Lemma consistent_handler (login : string) (call : ToolCall) :
  preserves tasks_consistent (handler login call).
Proof.
  destruct call; cbn [handler].
  - unfold parseYoutubePRP, parse_and_store, auto_sync_stage, inline_create,
      inline_mark_synced, record_sync_failure, parse_failed. tools.
  - unfold syncToNotion, sync_try, sync_catch, sync_response. tools.
  - unfold extractTasks. tools.
  - unfold updateTaskStatus. tools.
Qed.

Lemma consistent_call_tool (login : string) (call : ToolCall) :
  preserves tasks_consistent (call_tool login call).
Proof.
  unfold call_tool.
  keep_with ltac:(apply consistent_handler).
Qed.

Lemma consistent_reachable (env : Env) (start w : World) :
  tasks_consistent (db start) -> reachable env start w -> tasks_consistent (db w).
Proof.
  intros H R. induction R as [|w login call R IH].
  - exact H.
  - now apply consistent_call_tool.
Qed.

Lemma completion_columns_set_status (task_id : string) (status : TaskStatus)
    (login : string) (now : nat) (rows : list DatabaseTaskRow) :
  status <> completed ->
  map completion_columns (map (set_status task_id status login now) rows)
  = map completion_columns rows.
Proof.
  intros H. rewrite map_map. apply map_ext. intros r.
  unfold set_status, completion_columns.
  destruct (String.eqb (row_id r) task_id); [|reflexivity].
  destruct status; cbn; try reflexivity. now elim H.
Qed.

Lemma updateTaskStatus_completion_columns (login task_id : string)
    (status : TaskStatus) (env : Env) (w : World) :
  status <> completed ->
  map completion_columns
    (tasks_table (db (snd (updateTaskStatus login task_id status env w))))
  = map completion_columns (tasks_table (db w)).
Proof.
  intros H.
  unfold updateTaskStatus, try_catch, bind, withDatabase, update_and_lookup,
    update_task_status.
  destruct (db_reachable env (units w)); [|reflexivity].
  match goal with |- context [List.find ?f ?l] => destruct (List.find f l) end.
  - cbn -[select_prp set_status].
    match goal with
    | |- context [select_prp ?a ?b] => destruct (select_prp a b)
    end; cbn -[set_status]; now apply completion_columns_set_status.
  - reflexivity.
Qed.

(** ** C6 *)

(** Counterexample to C6 as stated.  A task is completed and then set back
    to [pending]: its status is not [completed], but [completed_at] and
    [completed_by] are still set, so "completed if and only if both are
    non-null" fails. *)
Lemma reopened_task_keeps_completion_columns :
  exists t,
    In t (tasks_table
            (db (run_calls (pipeline_env true (fun _ => true)) "coleam00"
                   [CallParseYoutubePRP example_url None false;
                    CallUpdateTaskStatus "uuid-1" completed;
                    CallUpdateTaskStatus "uuid-1" pending]
                   (fresh_world migrated))))
    /\ row_status t = pending
    /\ completed_at t = Some 1001
    /\ completed_by t = Some "coleam00"
    /\ ~ completed_iff_recorded t.
Proof.
  match goal with
  | |- context [db ?w] => let w' := eval vm_compute in w in change w with w'
  end.
  cbn [db tasks_table].
  eexists. split; [left; reflexivity |].
  cbn. repeat split.
  intros [_ H]. assert (C : pending = completed) by (apply H; split; discriminate).
  discriminate.
Qed.

(** C6, amended.  In every world reached by tool calls from a consistent
    store, a task whose status is [completed] has both [completed_at] and
    [completed_by] set, and the two columns are set or null together (the
    converse fails: a task set back to another status keeps them).  A call
    of [updateTaskStatus] with a status other than [completed] leaves
    [completed_at] and [completed_by] of every task as they were. *)
Theorem completed_implies_recorded_and_never_cleared
    (env : Env) (start w : World) (login task_id : string) (status : TaskStatus) :
  tasks_consistent (db start) ->
  reachable env start w ->
  status <> completed ->
  (forall t, In t (tasks_table (db w)) ->
     (row_status t = completed -> completed_at t <> None /\ completed_by t <> None)
     /\ (completed_at t = None <-> completed_by t = None))
  /\ map completion_columns
       (tasks_table (db (snd (updateTaskStatus login task_id status env w))))
     = map completion_columns (tasks_table (db w)).
Proof.
  intros Hstart Hreach Hstatus. split.
  - pose proof (consistent_reachable env start w Hstart Hreach) as H.
    unfold tasks_consistent in H. rewrite forallb_forall in H.
    intros t Ht. specialize (H t Ht). unfold completion_ok in H.
    destruct (completed_at t), (completed_by t); try discriminate.
    + repeat split; discriminate.
    + split.
      * intros E. rewrite E in H. discriminate.
      * split; reflexivity.
  - now apply updateTaskStatus_completion_columns.
Qed.

Lemma completed_implies_recorded_and_never_cleared_witness :
  let env := pipeline_env true (fun _ => true) in
  let start := fresh_world migrated in
  let w := run_calls env "coleam00"
             [CallParseYoutubePRP example_url None false;
              CallUpdateTaskStatus "uuid-1" completed] start in
  let reopened := snd (updateTaskStatus "coleam00" "uuid-1" pending env w) in
  tasks_consistent (db start)
  /\ reachable env start w
  /\ pending <> completed
  /\ map row_status (tasks_table (db w)) = [completed; pending]
  /\ map row_status (tasks_table (db reopened)) = [pending; pending]
  /\ map completion_columns (tasks_table (db reopened))
     = [("uuid-1", Some 1001, Some "coleam00"); ("uuid-2", None, None)].
Proof.
  intros env start w reopened.
  assert (H1 : tasks_consistent (db start)) by reflexivity.
  assert (H2 : reachable env start w) by (do 2 apply reachable_call; apply reachable_start).
  assert (H3 : pending <> completed) by discriminate.
  refine (conj H1 (conj H2 (conj H3 _))).
  split; [reflexivity |]. split; [reflexivity |].
  subst reopened.
  rewrite (proj2 (completed_implies_recorded_and_never_cleared
                    env start w "coleam00" "uuid-1" pending H1 H2 H3)).
  reflexivity.
Defined.

(** ** C7 *)



Lemma forallb_mapi_from {A B : Type} (f : A -> nat -> B) (p : B -> bool)
    (l : list A) (start : nat) :
  (forall a i, In a l -> p (f a i) = true) ->
  forallb p (mapi_from start f l) = true.
Proof.
  revert start. induction l as [|a l IH]; intros start H; cbn.
  - reflexivity.
  - rewrite H by now left. apply IH. intros b i Hb. apply H. now right.
Qed.

Lemma mapi_from_length {A B : Type} (f : A -> nat -> B) (l : list A) (start : nat) :
  List.length (mapi_from start f l) = List.length l.
Proof.
  revert start. induction l as [|a l IH]; intros start; cbn;
    [reflexivity | now rewrite IH].
Qed.




(** Under migration 001 alone the constraint knows five types only. *)
Example migration_001_rejects_analyze :
  admits (type_check migration_001) "analyze" = false
  /\ admits (type_check migrated) "analyze" = true.
Proof. split; reflexivity. Qed.

(** *** Validation *)







(** *** Running the code step by step *)

Lemma bind_step {A B : Type} (m : M A) (f : A -> M B) (env : Env) (w w1 : World)
    (a : A) :
  m env w = (Ok a, w1) -> bind m f env w = f a env w1.
Proof. intros H. unfold bind. now rewrite H. Qed.

Lemma bind_throw {A B : Type} (m : M A) (f : A -> M B) (env : Env) (w w1 : World)
    (e : JsError) :
  m env w = (Throw e, w1) -> bind m f env w = (Throw e, w1).
Proof. intros H. unfold bind. now rewrite H. Qed.


Lemma try_catch_caught {A : Type} (m : M A) (h : JsError -> M A) (env : Env)
    (w w1 : World) (e : JsError) :
  m env w = (Throw e, w1) -> try_catch m h env w = h e env w1.
Proof. intros H. unfold try_catch. now rewrite H. Qed.

Lemma ask_step (env : Env) (w : World) : ask env w = (Ok env, w).
Proof. reflexivity. Qed.

Lemma console_said (message : string) (env : Env) (w : World) :
  console message env w = (Ok tt, said w message).
Proof. reflexivity. Qed.




Lemma withDatabase_throw {A : Type} (work : Statement A) (env : Env) (w : World)
    (e : JsError) (d' : Database) :
  db_reachable env (units w) = true ->
  work (gen_random_uuid env) (NOW env (units w)) (db w) = (Throw e, d') ->
  withDatabase work env w = (Throw e, unit_done w (db w)).
Proof. intros Hdb H. unfold withDatabase. now rewrite Hdb, H. Qed.

Lemma withDatabase_unreachable {A : Type} (work : Statement A) (env : Env)
    (w : World) :
  db_reachable env (units w) = false ->
  withDatabase work env w
  = (Throw (PlainError "Failed to connect to the database"), unit_done w (db w)).
Proof. intros Hdb. unfold withDatabase. now rewrite Hdb. Qed.

Lemma kept_step {A : Type} (m : M A) (env : Env) (w w' : World) (o : Outcome A) :
  (forall P, preserves P m) -> m env w = (o, w') -> db w' = db w.
Proof.
  intros H E. pose proof (H (fun d => d = db w) env w eq_refl) as K.
  now rewrite E in K.
Qed.

Ltac step := erewrite bind_step by (first [ apply ask_step | apply console_said ]).

(** *** The parse operation *)




Lemma stored_after_append (rows : list DatabasePRPRow) (row : DatabasePRPRow) :
  existsb (has_id (id row)) (rows ++ [row]) = true.
Proof.
  rewrite existsb_app. cbn [existsb]. unfold has_id at 2.
  rewrite String.eqb_refl. cbn [orb]. apply orb_true_r.
Qed.



(** *** The extract-more operation *)









(** ** The sync state of a stored PRP *)

Lemma find_map_set_failed (prp_id message : string) (now : nat)
    (rows : list DatabasePRPRow) :
  List.find (has_id prp_id) (map (set_failed prp_id message now) rows)
  = option_map (set_failed prp_id message now) (List.find (has_id prp_id) rows).
Proof.
  induction rows as [|r rows IH]; cbn.
  - reflexivity.
  - unfold set_failed at 1. destruct (has_id prp_id r) eqn:E.
    + unfold has_id at 1. cbn [id]. fold (has_id prp_id r). now rewrite E.
    + now rewrite E.
Qed.

Lemma prp_stored_select (prp_id : string) (d : Database) :
  prp_stored prp_id d -> exists r, select_prp prp_id d = Some r.
Proof.
  unfold prp_stored, select_prp. intros H.
  apply existsb_exists in H as (r & Hr & Hid).
  destruct (List.find (has_id prp_id) (parsed_prps d)) eqn:E.
  - now eexists.
  - now rewrite (find_none _ _ E r Hr) in Hid.
Qed.

Lemma existsb_map_same_id (prp_id : string) (f : DatabasePRPRow -> DatabasePRPRow)
    (rows : list DatabasePRPRow) :
  (forall r, id (f r) = id r) ->
  existsb (has_id prp_id) (map f rows) = existsb (has_id prp_id) rows.
Proof.
  intros H. induction rows as [|r rows IH]; cbn.
  - reflexivity.
  - unfold has_id at 1. now rewrite H, IH.
Qed.

Lemma set_synced_id (prp_id : string) (page : option string) (clear : bool)
    (now : nat) (r : DatabasePRPRow) :
  id (set_synced prp_id page clear now r) = id r.
Proof. unfold set_synced. now destruct (has_id prp_id r). Qed.

Lemma set_failed_id (prp_id message : string) (now : nat) (r : DatabasePRPRow) :
  id (set_failed prp_id message now r) = id r.
Proof. unfold set_failed. now destruct (has_id prp_id r). Qed.

Lemma stored_mark_synced (p prp_id : string) (page : jsval) (clear : bool) :
  statement_preserves (prp_stored p) (mark_synced prp_id page clear).
Proof.
  intros uuid now d a d' H. unfold mark_synced.
  destruct page; [|discriminate].
  intros E. injection E as _ Ed. subst d'. unfold prp_stored in *. cbn.
  rewrite existsb_map_same_id; [exact H | apply set_synced_id].
Qed.

Lemma stored_inline_sync (p prp_id database_id : string) :
  preserves (prp_stored p) (inline_sync prp_id database_id).
Proof.
  unfold inline_sync, inline_create, inline_mark_synced.
  keep_with ltac:(first [ apply preserves_createDatabasePage
                        | apply preserves_constructors
                        | apply preserves_withDatabase; apply stored_mark_synced ]).
Qed.


Lemma store_prp_effect (accepts : string -> bool) (youtube_url videoId : string)
    (metadata : VideoMetadata) (transcript : string) (prpContent : PRPContent)
    (login : string) (uuid : nat -> string) (now : nat) (d d' : Database)
    (row : DatabasePRPRow) :
  store_prp accepts youtube_url videoId metadata transcript prpContent login
    uuid now d = (Ok row, d') ->
  parsed_prps d' = (parsed_prps d ++ [row])%list
  /\ (notion_sync_status row = not_synced /\ notion_page_id row = None
      /\ notion_sync_error row = None /\ notion_synced_at row = None)
  /\ (created_by row = login /\ video_id row = videoId
      /\ parsed_content row = prpContent)
  /\ exists rows,
       tasks_table d' = (tasks_table d ++ rows)%list
       /\ rows = match prp_tasks prpContent with
                 | [] => []
                 | tasks =>
                     mapi (task_row uuid now (S (uuids_used d)))
                       (mapi (initial_task_values (id row)) tasks)
                 end.
Proof.
  intros E. apply store_prp_Ok in E as (d1 & E1 & E2).
  apply insert_prp_Ok in E1 as (_ & -> & _ & Hsync & Hown).
  destruct E2 as [[Et ->]|(Hne & rows & Ei)].
  - cbn [parsed_prps tasks_table]. repeat split; try tauto.
    exists []. rewrite Et, app_nil_r. now split.
  - apply insert_tasks_Ok in Ei as (_ & _ & _ & -> & ->).
    cbn [parsed_prps tasks_table uuids_used]. repeat split; try tauto.
    eexists. split; [reflexivity |].
    destruct (prp_tasks prpContent); [now elim Hne | reflexivity].
Qed.

(** When the first part of the parse returns, the new row is the last of
    [parsed_prps]. *)
Lemma parse_and_store_effect (login youtube_url videoId : string) (env : Env)
    (w w1 : World) (p : Parsed) :
  parse_and_store login youtube_url videoId env w = (Ok p, w1) ->
  exists d,
    db w1 = d
    /\ store_prp (timestamptz_in env) youtube_url videoId (parsed_metadata p)
         (transcript (parsed_prp p)) (parsed_prpContent p) login
         (gen_random_uuid env) (NOW env (Nat.pred (units w1))) (db w)
       = (Ok (parsed_prp p), d).
Proof.
  unfold parse_and_store. intros H.
  apply bind_Ok in H as (e & wa & Ha & H).
  apply bind_Ok in H as (? & wb & Hb & H).
  apply bind_Ok in H as (? & wc & Hc & H).
  apply bind_Ok in H as (? & wd & Hd & H).
  apply bind_Ok in H as (metadata & we & He & H).
  apply bind_Ok in H as (? & wf & Hf & H).
  apply bind_Ok in H as (tr & wg & Hg & H).
  apply bind_Ok in H as (? & wh & Hh & H).
  apply bind_Ok in H as (prpContent & wi & Hi & H).
  apply bind_Ok in H as (prp & wj & Hstore & H).
  apply bind_Ok in H as (? & wk & Hconsole & H).
  unfold ret in H. inversion H; subst; clear H.
  cbn [parsed_prp parsed_prpContent parsed_metadata].
  inversion Ha; subst; clear Ha.
  apply kept_step in Hb; [|intros; apply preserves_constructors].
  apply kept_step in Hc; [|intros; apply preserves_constructors].
  apply kept_step in Hd; [|intros; apply preserves_console].
  apply kept_step in He; [|intros; apply preserves_getVideoMetadata].
  apply kept_step in Hf; [|intros; apply preserves_console].
  apply kept_step in Hg; [|intros; apply preserves_getVideoTranscript].
  apply kept_step in Hh; [|intros; apply preserves_console].
  apply kept_step in Hi; [|intros; apply preserves_parsePRPContent].
  assert (Hdb : db wi = db wa) by congruence.
  unfold console, emit in Hconsole. inversion Hconsole; subst; clear Hconsole.
  cbn [db units].
  unfold withDatabase in Hstore.
  destruct (db_reachable e (units wi)); [|discriminate].
  match type of Hstore with
  | context [store_prp ?a ?b ?c ?d ?f ?g ?h ?i ?j ?k] =>
      destruct (store_prp a b c d f g h i j k) as [[row|err] d'] eqn:E
  end; [|discriminate].
  inversion Hstore; subst; clear Hstore. cbn [db units Nat.pred].
  exists d'. split; [reflexivity |].
  rewrite Hdb in E.
  assert (Htr : transcript prp = tr).
  { apply store_prp_Ok in E as (d1 & E1 & _). unfold insert_prp in E1.
    destruct (timestamptz_in e (md_publishedAt metadata)); [|discriminate].
    now inversion E1. }
  rewrite Htr. exact E.
Qed.

Lemma parse_and_store_stored (login youtube_url videoId : string) (env : Env)
    (w w1 : World) (p : Parsed) :
  parse_and_store login youtube_url videoId env w = (Ok p, w1) ->
  prp_stored (id (parsed_prp p)) (db w1)
  /\ In (parsed_prp p) (parsed_prps (db w1))
  /\ notion_sync_status (parsed_prp p) = not_synced
  /\ notion_sync_error (parsed_prp p) = None.
Proof.
  intros H. apply parse_and_store_effect in H as (d & -> & E).
  apply store_prp_effect in E as (Hrows & (Hs & _ & He & _) & _).
  unfold prp_stored. rewrite Hrows. split; [apply stored_after_append |].
  split; [apply in_or_app; right; now left |]. now split.
Qed.

(** When the [try] block of the inline sync throws and the failure record
    can be written, the stage ends with [syncStatus = 'failed']. *)
Lemma auto_sync_stage_failure (prp_id : string) (c : ascii) (s : string)
    (env : Env) (w1 w2 : World) (error : JsError) :
  inline_sync prp_id (String c s) env w1 = (Throw error, w2) ->
  db_reachable env (units w2) = true ->
  exists page,
    auto_sync_stage prp_id (Some (String c s)) true env w1
    = (Ok (page, failed), failure_recorded env prp_id error w2).
Proof.
  unfold inline_sync, auto_sync_stage, attempt, bind. intros H Hdb.
  destruct (inline_create (String c s) env w1) as [[page|e] wa].
  - destruct (inline_mark_synced prp_id page env wa) as [[u|e] wb].
    + discriminate.
    + inversion H; subst; clear H. exists page.
      unfold record_sync_failure, bind, console, emit, withDatabase, mark_failed, ret.
      cbn [units db log fetches]. now rewrite Hdb.
  - inversion H; subst; clear H. exists None.
    unfold record_sync_failure, bind, console, emit, withDatabase, mark_failed, ret.
    cbn [units db log fetches]. now rewrite Hdb.
Qed.

(** When the store is out of reach for the failure record, the write throws
    and the stage throws with it. *)
Lemma auto_sync_stage_unrecorded (prp_id : string) (c : ascii) (s : string)
    (env : Env) (w1 w2 : World) (error : JsError) :
  inline_sync prp_id (String c s) env w1 = (Throw error, w2) ->
  db_reachable env (units w2) = false ->
  auto_sync_stage prp_id (Some (String c s)) true env w1
  = (Throw connection_error,
     unit_done (said w2 ("Failed to sync to Notion: " ++ error_to_string error))
       (db w2)).
Proof.
  unfold inline_sync, auto_sync_stage, attempt, bind. intros H Hdb.
  destruct (inline_create (String c s) env w1) as [[page|e] wa].
  - destruct (inline_mark_synced prp_id page env wa) as [[u|e] wb].
    + discriminate.
    + inversion H; subst; clear H.
      unfold record_sync_failure, bind, console, emit, withDatabase.
      cbn [units db log fetches]. now rewrite Hdb.
  - inversion H; subst; clear H.
    unfold record_sync_failure, bind, console, emit, withDatabase.
    cbn [units db log fetches]. now rewrite Hdb.
Qed.

(** A [try] block of the inline sync that throws has left the store as it
    was: page creation does not touch it, and the write of the synced state
    is applied whole or not at all. *)
Lemma inline_sync_throw_keeps (prp_id database_id : string) (env : Env)
    (w1 w2 : World) (error : JsError) :
  inline_sync prp_id database_id env w1 = (Throw error, w2) -> db w2 = db w1.
Proof.
  unfold inline_sync, bind. intros H.
  destruct (inline_create database_id env w1) as [[page|e] wa] eqn:Ec.
  - assert (Ka : db wa = db w1).
    { apply kept_step in Ec; [exact Ec |]. intros P. unfold inline_create.
      keep_with ltac:(first [ apply preserves_createDatabasePage
                            | apply preserves_constructors ]). }
    unfold inline_mark_synced, bind, withDatabase in H.
    destruct (db_reachable env (units wa)).
    + destruct (mark_synced prp_id page false (gen_random_uuid env)
                  (NOW env (units wa)) (db wa)) as [[u|e] d'].
      * discriminate.
      * inversion H; subst; clear H. exact Ka.
    + inversion H; subst; clear H. exact Ka.
  - inversion H; subst; clear H.
    apply kept_step in Ec; [exact Ec |]. intros P. unfold inline_create.
    keep_with ltac:(first [ apply preserves_createDatabasePage
                          | apply preserves_constructors ]).
Qed.

Lemma failure_recorded_select (env : Env) (prp_id : string) (error : JsError)
    (w : World) :
  prp_stored prp_id (db w) ->
  exists r,
    select_prp prp_id (db (failure_recorded env prp_id error w)) = Some r
    /\ notion_sync_status r = failed
    /\ notion_sync_error r = Some (error_message error).
Proof.
  intros H. apply prp_stored_select in H as (r & Hr).
  unfold select_prp, failure_recorded in *. cbn [db parsed_prps with_prps].
  rewrite find_map_set_failed, Hr. cbn [option_map].
  eexists. split; [reflexivity |].
  apply find_some in Hr as [_ Hid].
  unfold set_failed. rewrite Hid. split; reflexivity.
Qed.

(** ** C5 *)

(** Counterexample to C5 as stated.  The PRP and its two tasks are stored,
    the inline sync fails (the database of the document store is unknown),
    and the store is out of reach for the write that records the failure:
    the parse answers with its error envelope, and the row of the PRP still
    says [not_synced]. *)
Lemma parse_fails_when_failure_record_fails :
  let env := pipeline_env false (fun n => (n =? 0)%nat) in
  let result := parseYoutubePRP "coleam00" example_url (Some "db-1") true env
                  (fresh_world migrated) in
  fst result
  = Ok (ErrorResponse "Failed to parse YouTube PRP"
          [("error", JStr "Failed to connect to the database");
           ("url", JStr example_url)])
  /\ map (fun r => (id r, notion_sync_status r, notion_sync_error r))
       (parsed_prps (db (snd result)))
     = [("uuid-0", not_synced, None)]
  /\ map (fun t => (order_num t, row_type t)) (tasks_table (db (snd result)))
     = [(1, "design"); (2, "create")].
Proof. vm_compute. repeat split. Qed.

(** C5, amended.  In a parse invocation that has stored the PRP and its
    tasks, with auto-sync requested and a target database id given, let the
    inline sync fail.  When the store takes the failure record, the PRP's
    sync state is [failed] with the error's message, and the parse still
    answers with a success envelope whose [sync_status] is ["failed"].
    When the store is out of reach for the failure record, the parse
    answers with its error envelope although the PRP is stored, and the
    store stays as the parse left it: the row of the PRP says
    [not_synced] and holds no error. *)
Theorem inline_sync_failure_recorded_or_parse_fails
    (login youtube_url videoId : string) (c : ascii) (s : string)
    (env : Env) (w w1 w2 : World) (p : Parsed) (error : JsError) :
  extractVideoId youtube_url = Ok videoId ->
  parse_and_store login youtube_url videoId env w = (Ok p, w1) ->
  inline_sync (id (parsed_prp p)) (String c s) env w1 = (Throw error, w2) ->
  (db_reachable env (units w2) = true ->
   exists response,
     parseYoutubePRP login youtube_url (Some (String c s)) true env w
     = (Ok response, failure_recorded env (id (parsed_prp p)) error w2)
     /\ is_success response = true
     /\ assoc "sync_status" (response_data response) = Some (JStr "failed")
     /\ assoc "prp_id" (response_data response) = Some (JStr (id (parsed_prp p)))
     /\ exists row,
          select_prp (id (parsed_prp p))
            (db (failure_recorded env (id (parsed_prp p)) error w2)) = Some row
          /\ notion_sync_status row = failed
          /\ notion_sync_error row = Some (error_message error))
  /\ (db_reachable env (units w2) = false ->
      parseYoutubePRP login youtube_url (Some (String c s)) true env w
      = (Ok (ErrorResponse "Failed to parse YouTube PRP"
               [("error", JStr (formatDatabaseError env connection_error));
                ("url", JStr youtube_url)]),
         failure_not_recorded error w2)
      /\ db (failure_not_recorded error w2) = db w1
      /\ prp_stored (id (parsed_prp p)) (db w1)
      /\ In (parsed_prp p) (parsed_prps (db w1))
      /\ notion_sync_status (parsed_prp p) = not_synced
      /\ notion_sync_error (parsed_prp p) = None).
Proof.
  intros Hid Hstore Hsync.
  destruct (parse_and_store_stored _ _ _ _ _ _ _ Hstore) as (Hs & Hin & Hns & Hne).
  split; intros Hdb.
  - destruct (auto_sync_stage_failure _ c s env w1 w2 error Hsync Hdb)
      as (page & Hstage).
    exists (parse_response p page failed).
    split; [|split; [|split; [|split]]].
    + unfold parseYoutubePRP, try_catch. rewrite Hid. unfold bind.
      rewrite Hstore, Hstage. reflexivity.
    + reflexivity.
    + unfold parse_response, createSuccessResponse, response_data, field.
      destruct page; reflexivity.
    + reflexivity.
    + apply failure_recorded_select.
      pose proof (stored_inline_sync (id (parsed_prp p)) (id (parsed_prp p))
                    (String c s) env w1 Hs) as Hk.
      now rewrite Hsync in Hk.
  - pose proof (auto_sync_stage_unrecorded _ c s env w1 w2 error Hsync Hdb)
      as Hstage.
    split; [|split; [|repeat split; assumption]].
    + unfold parseYoutubePRP, try_catch. rewrite Hid. unfold bind at 1.
      rewrite Hstore. unfold bind at 1. rewrite Hstage. reflexivity.
    + cbn [failure_not_recorded said unit_done db].
      exact (inline_sync_throw_keeps _ _ _ _ _ _ Hsync).
Qed.

Lemma inline_sync_failure_recorded_or_parse_fails_witness :
  let recorded := pipeline_env false (fun _ => true) in
  let lost := pipeline_env false (fun n => (n =? 0)%nat) in
  extractVideoId example_url = Ok "dQw4w9WgXcQ"
  /\ (exists response,
        fst (parseYoutubePRP "coleam00" example_url (Some "db-1") true recorded
               (fresh_world migrated)) = Ok response
        /\ is_success response = true
        /\ assoc "sync_status" (response_data response) = Some (JStr "failed"))
  /\ fst (parseYoutubePRP "coleam00" example_url (Some "db-1") true lost
            (fresh_world migrated))
     = Ok (ErrorResponse "Failed to parse YouTube PRP"
             [("error", JStr "Failed to connect to the database");
              ("url", JStr example_url)]).
Proof.
  intros recorded lost.
  assert (H : forall env,
             env = recorded \/ env = lost ->
             exists p w1 w2,
               parse_and_store "coleam00" example_url "dQw4w9WgXcQ" env
                 (fresh_world migrated) = (Ok p, w1)
               /\ id (parsed_prp p) = "uuid-0"
               /\ units w2 = 1
               /\ inline_sync "uuid-0" "db-1" env w1
                  = (Throw (APIError Notion
                              "Database db-1 not found or not accessible"
                              (Some 404%Z) None), w2)).
  { intros env [->| ->]; do 3 eexists;
      (split; [vm_compute; reflexivity |]);
      (split; [reflexivity |]);
      (split; [| vm_compute; reflexivity]); reflexivity. }
  split; [reflexivity |]. split.
  - destruct (H recorded (or_introl eq_refl)) as (p & w1 & w2 & Es & Hp & Hu & Ei).
    rewrite <- Hp in Ei.
    destruct (proj1 (inline_sync_failure_recorded_or_parse_fails
                       "coleam00" example_url "dQw4w9WgXcQ" "d"%char "b-1"
                       recorded (fresh_world migrated) w1 w2 p _ eq_refl Es Ei)
                eq_refl)
      as (response & Hr & Hok & Hstatus & _).
    exists response. rewrite Hr. repeat split; assumption.
  - destruct (H lost (or_intror eq_refl)) as (p & w1 & w2 & Es & Hp & Hu & Ei).
    rewrite <- Hp in Ei.
    assert (Hdb : db_reachable lost (units w2) = false) by now rewrite Hu.
    destruct (proj2 (inline_sync_failure_recorded_or_parse_fails
                       "coleam00" example_url "dQw4w9WgXcQ" "d"%char "b-1"
                       lost (fresh_world migrated) w1 w2 p _ eq_refl Es Ei)
                Hdb)
      as (Hr & _).
    rewrite Hr. reflexivity.
Defined.

(** ** C1 *)

Lemma try_catch_Ok {A : Type} (m : M A) (h : JsError -> M A) (env : Env)
    (w w' : World) (a : A) :
  try_catch m h env w = (Ok a, w') ->
  m env w = (Ok a, w')
  \/ exists e w1, m env w = (Throw e, w1) /\ h e env w1 = (Ok a, w').
Proof.
  unfold try_catch. destruct (m env w) as [[x|e] w1]; intros H.
  - now left.
  - right. now exists e, w1.
Qed.

(** The [try] block of [syncToNotion] returns the already-synced notice only
    when there is a stored page id, a page was found, and no update was
    asked for. *)
Lemma sync_try_Returned (prp_id database_id : string) (update_existing : bool)
    (notionPageId existingPageId : jsval) (env : Env) (w w' : World)
    (response : ToolResponse) :
  sync_try prp_id database_id update_existing notionPageId existingPageId env w
  = (Ok (Returned response), w') ->
  truthy notionPageId = true /\ truthy existingPageId = true
  /\ update_existing = false.
Proof.
  unfold sync_try. intros H.
  apply bind_Ok in H as (step & w1 & Hstep & H).
  destruct step as [r|page].
  - destruct (truthy existingPageId), update_existing, (truthy notionPageId);
      cbn [andb orb negb] in Hstep; try (repeat split; reflexivity).
    all: repeat (apply bind_Ok in Hstep as (? & ? & _ & Hstep));
      unfold ret in Hstep; discriminate.
  - apply bind_Ok in H as (? & ? & _ & H). unfold ret in H. discriminate.
Qed.

(** No call of [syncToNotion] ends in the already-synced notice: the lookup
    that could find a page is skipped exactly when the notice would apply. *)
Lemma syncToNotion_never_already_synced (login prp_id database_id : string)
    (update_existing : bool) (env : Env) (w : World) (details : list (string * json)) :
  fst (syncToNotion login prp_id database_id update_existing env w)
  <> Ok (ErrorResponse "PRP already synced to Notion" details).
Proof.
  destruct (syncToNotion login prp_id database_id update_existing env w)
    as [r w'] eqn:E. cbn [fst]. intros ->.
  unfold syncToNotion in E.
  apply try_catch_Ok in E as [E|(e & w1 & _ & E)].
  - destruct (ALLOWED_USERNAMES_has login); cbn [negb] in E.
    + apply bind_Ok in E as (prp & w1 & _ & E).
      apply bind_Ok in E as (? & w2 & _ & E).
      apply bind_Ok in E as (existing & w3 & Hexisting & E).
      apply bind_Ok in E as (step & w4 & Hstep & E).
      destruct step as [response|page].
      * apply try_catch_Ok in Hstep as [Hstep|(e & w5 & _ & Hstep)].
        -- apply sync_try_Returned in Hstep as (Hstored & Hfound & ->).
           rewrite Hstored in Hexisting. cbn [negb orb] in Hexisting.
           unfold ret in Hexisting. inversion Hexisting; subst.
           discriminate.
        -- unfold sync_catch in Hstep.
           apply bind_Ok in Hstep as (? & ? & _ & Hstep). discriminate.
      * unfold sync_response in E.
        destruct page as [[]|]; discriminate.
    + unfold ret, insufficient_permissions, createErrorResponse in E. discriminate.
  - apply bind_Ok in E as (? & ? & _ & E).
    apply bind_Ok in E as (? & ? & _ & E).
    unfold ret, createErrorResponse in E. discriminate.
Qed.

(** C1 (the code departs from the claim).  A PRP is parsed and synced; its
    row then carries the page id ["page-6"].  A second call of
    [syncToNotion] with [update_existing = false] does not answer with the
    already-synced notice: it sends the page-creation request again, answers
    with success and the id of the second page, and stores that id. *)
Theorem second_sync_creates_second_page :
  let env := pipeline_env true (fun _ => true) in
  let w1 := run_calls env "coleam00"
              [CallParseYoutubePRP example_url None false;
               CallSyncToNotion "uuid-0" "db-1" false] (fresh_world migrated) in
  let second := call_tool "coleam00" (CallSyncToNotion "uuid-0" "db-1" false) env w1 in
  stored_page "uuid-0" w1 = Some (Some "page-6")
  /\ (exists message data,
        fst second = Ok (Some (SuccessResponse message data))
        /\ assoc "notion_page_id" data = Some (JStr "page-8"))
  /\ List.length (filter is_page_creation (events_since w1 (snd second))) = 1
  /\ stored_page "uuid-0" (snd second) = Some (Some "page-8").
Proof.
  vm_compute. split; [reflexivity |]. split; [|split; reflexivity].
  do 2 eexists. split; reflexivity.
Qed.

(** ** C2 *)

(** The order numbers of a batch of [extractTasks] continue from the number
    of tasks in the stored PRP content, which no operation updates. *)
Lemma extracted_order_numbers (prp_id : string) (existing : nat)
    (newTasks : list PRPTask) :
  map tv_order_num (mapi (extracted_task_values prp_id existing) newTasks)
  = seq (existing + 1) (List.length newTasks).
Proof.
  unfold mapi.
  assert (H : forall start,
             map tv_order_num
               (mapi_from start (extracted_task_values prp_id existing) newTasks)
             = seq (existing + start + 1) (List.length newTasks)).
  { induction newTasks as [|t l IH]; intros start; cbn.
    - reflexivity.
    - rewrite IH. do 2 f_equal. lia. }
  rewrite H. f_equal. lia.
Qed.

(** C2 (the code departs from the claim).  A PRP is parsed with two tasks,
    which get the order numbers 1 and 2; a first [extractTasks] call adds a
    task with order number 3; a second call adds another task, again with
    order number 3, because the next number is computed from the task count
    of the stored PRP content and not from the persisted tasks. *)
Theorem second_extract_repeats_order_number :
  let env := pipeline_env true (fun _ => true) in
  let parse := CallParseYoutubePRP example_url None false in
  let extract := CallExtractTasks "uuid-0" 20 in
  stored_orders "uuid-0" (run_calls env "coleam00" [parse] (fresh_world migrated))
  = [1; 2]
  /\ stored_orders "uuid-0"
       (run_calls env "coleam00" [parse; extract] (fresh_world migrated))
     = [1; 2; 3]
  /\ stored_orders "uuid-0"
       (run_calls env "coleam00" [parse; extract; extract] (fresh_world migrated))
     = [1; 2; 3; 3]
  /\ ~ NoDup [1; 2; 3; 3].
Proof.
  vm_compute. repeat split.
  intros H. inversion H as [|? ? _ H1]; subst.
  inversion H1 as [|? ? _ H2]; subst.
  inversion H2 as [|? ? H3 _]; subst.
  apply H3. now left.
Qed.

(** * Further properties of the code *)

(** ** Video-id extraction *)
